(** * PyWO keyboard service: shortcut dispatch and the modal key handler

    A shallow embedding of [pywo/services/keyboard_service.py]: the
    binding table built by [PywoModeKeyPressHandler.set_config], the
    dispatch path of [PywoModeKeyPressHandler.key_press], and the
    normal / PyWO-mode state machine of [ModalKeyHandler] together with
    the module-level [setup], [start] and [stop].

    Python objects mutated in place ([HANDLER], its [pywo_handler], the
    window manager [WM] and the logger) live in one [World] record that
    every method threads; a raised exception leaves the world as it was at
    the point of the raise. *)

From stdpp Require Import gmap strings list.
From Stdlib Require Import ZArith.

Set Warnings "-clear-no-such-hyp".

Open Scope Z_scope.
Open Scope string_scope.
Open Scope list_scope.

(** ** Data *)

(** [(modifiers, keycode)], the key of the [mappings] dictionary. *)
Definition KeyCombo : Type := Z * Z.

Record Event := mkEvent { modifiers : Z; keycode : Z }.

Definition combo (ev : Event) : KeyCombo := (modifiers ev, keycode ev).

(** What the service reads of an action: [action.name] and
    [action.need_section]. *)
Record Action := mkAction { name : string; need_section : bool }.

#[global] Instance Action_eq_dec : EqDecision Action.
Proof. solve_decision. Defined.

Module Sec.
(** A configuration section: [section.key], [section.ignored_actions]. *)
Record t := mk { name : string; key : option string;
                 ignored_actions : list string }.
End Sec.

Module Cfg.
(** The configuration object as the service reads it. [keys] is the
    dictionary behind [config.keys.get]; [sections] lists
    [config.sections.values()] in iteration order. *)
Record t := mk {
  keys : gmap string string;
  sections : list Sec.t;
  ignored_actions : list Action;
  numlock : Z;
  capslock : Z;
  modal_mode : bool;
  visual_bell : bool;
  bell_color : string;
  bell_width : Z;
  bell_duration : Z;
  scroll_lock_led : bool }.
End Cfg.

(** Python truthiness of an optional string: [None] and [''] are false. *)
Definition truthy (o : option string) : option string :=
  match o with
  | Some s => if bool_decide (s = "") then None else Some s
  | None => None
  end.

Definition Window : Type := Z.
Definition Kwargs : Type := list (string * string).

(** The three key handlers of the module: [HANDLER] itself, its
    [pywo_handler] and its [escape_handler]. *)
Inductive HandlerId := HModal | HPywo | HEscape.

#[global] Instance HandlerId_eq_dec : EqDecision HandlerId.
Proof. solve_decision. Defined.

#[global] Instance HandlerId_countable : Countable HandlerId.
Proof.
  refine (inj_countable'
    (fun h => match h with HModal => 0%nat | HPywo => 1%nat | HEscape => 2%nat end)
    (fun n => match n with 0%nat => HModal | 1%nat => HPywo | _ => HEscape end) _).
  by intros [].
Defined.

(** Exceptions the code raises or catches. [OtherException] stands for any
    other subclass of [Exception]; [BaseExceptionOnly] for an exception
    outside that hierarchy ([KeyboardInterrupt], [SystemExit],
    [GeneratorExit]), which [except Exception] does not catch. *)
Inductive Exn :=
  | ValueError
  | UnboundLocalError
  | ActionException (msg : string)
  | OtherException (msg : string)
  | BaseExceptionOnly (name : string).

(** [isinstance(exc, Exception)]; [actions.ActionException] is caught by
    the clause that names it. *)
Definition is_Exception (exc : Exn) : bool :=
  match exc with
  | BaseExceptionOnly _ => false
  | _ => true
  end.

Inductive Result (A : Type) :=
  | Ok (a : A)
  | Raise (e : Exn).
Arguments Ok {A} a.
Arguments Raise {A} e.

(** Logging calls: [log.debug], [log.info], [log.error], [log.exception]. *)
Inductive Level := LDebug | LInfo | LError | LException.

Inductive LogMsg :=
  | MsgEvent (ev : Event)
  | MsgExn (e : Exn)
  | MsgInvalidKey (s : Sec.t)
  | MsgText (s : string).

(** The calls that act on the window manager, the actions and the log,
    in program order. The two pure queries the table build makes,
    [WM.str2modifiers_keycode] and [actions.manager.get_all], are answered
    by [Env] and leave no entry. *)
Inductive Effect :=
  | ELog (lvl : Level) (msg : LogMsg)
  | EScrollLockLed (on : bool)
  | EVisualBell (color : string) (width duration : Z)
  | EFlush
  | EGrabKey (h : HandlerId) (k : KeyCombo)
  | EUngrabKey (h : HandlerId) (k : KeyCombo)
  | EActiveWindow
  | EGetKwargs (a : Action) (s : option Sec.t)
  | ECall (a : Action) (w : Window) (kw : Kwargs).

(** The collaborators outside this file: the window manager's key parser
    and active-window query, and the action registry. [str2modifiers_keycode]
    returns [None] where the Python raises [ValueError]. *)
Record Env := mkEnv {
  str2modifiers_keycode : string -> option string -> option KeyCombo;
  active_window : Result Window;
  get_all : list Action;
  get_kwargs : Action -> option Cfg.t -> option Sec.t -> Result Kwargs;
  call : Action -> Window -> Kwargs -> Result unit }.

Module PH.
(** Fields of a [PywoModeKeyPressHandler]. *)
Record t := mk {
  config : option Cfg.t;
  mappings : gmap KeyCombo (Action * option Sec.t);
  keys : list KeyCombo;
  numlock : Z;
  capslock : Z }.
End PH.

Module MH.
(** Fields of a [ModalKeyHandler]; [escape_keys] is the [keys] list of
    its [escape_handler]. *)
Record t := mk {
  use_modal_mode : bool;
  in_pywo_mode : bool;
  pywo_handler : PH.t;
  escape_keys : list KeyCombo;
  visual_bell : bool;
  bell_color : string;
  bell_width : Z;
  bell_duration : Z;
  scroll_lock_led : bool;
  keys : list KeyCombo;
  numlock : Z;
  capslock : Z }.

(** [self.in_pywo_mode = b] *)
Definition with_in_pywo_mode (b : bool) (h : t) : t :=
  mk (use_modal_mode h) b (pywo_handler h) (escape_keys h)
     (visual_bell h) (bell_color h) (bell_width h) (bell_duration h)
     (scroll_lock_led h) (keys h) (numlock h) (capslock h).

(** [self.use_modal_mode = b] *)
Definition with_use_modal_mode (b : bool) (h : t) : t :=
  mk b (in_pywo_mode h) (pywo_handler h) (escape_keys h)
     (visual_bell h) (bell_color h) (bell_width h) (bell_duration h)
     (scroll_lock_led h) (keys h) (numlock h) (capslock h).

(** Replaces the object behind [self.pywo_handler]'s fields. *)
Definition with_pywo_handler (p : PH.t) (h : t) : t :=
  mk (use_modal_mode h) (in_pywo_mode h) p (escape_keys h)
     (visual_bell h) (bell_color h) (bell_width h) (bell_duration h)
     (scroll_lock_led h) (keys h) (numlock h) (capslock h).
End MH.

(** The mutable state of the process: the window manager's table of
    grabbed combos (which handler each was grabbed for), the module-level
    [HANDLER], and the trace of outgoing calls. *)
Record World := mkWorld {
  grabbed : gset (HandlerId * KeyCombo);
  HANDLER : MH.t;
  trace : list Effect }.

(** ** State and exception monad *)

Definition M (A : Type) : Type := World -> Result A * World.

Definition ret {A} (a : A) : M A := fun w => (Ok a, w).

Definition bind {A B} (c : M A) (k : A -> M B) : M B := fun w =>
  match c w with
  | (Ok a, w') => k a w'
  | (Raise e, w') => (Raise e, w')
  end.

Definition raise {A} (e : Exn) : M A := fun w => (Raise e, w).

Notation "'let*' x ':=' c 'in' k" := (bind c (fun x => k))
  (at level 10, x name, c at level 100, k at level 200).
Notation "c ';;;' k" := (bind c (fun _ => k))
  (at level 100, k at level 200, right associativity).

(** [try: body except handles(e): handler e]. *)
Definition try_except {A} (body : M A) (handler : Exn -> option (M A)) : M A :=
  fun w =>
    match body w with
    | (Ok a, w') => (Ok a, w')
    | (Raise e, w') =>
        match handler e with
        | Some h => h w'
        | None => (Raise e, w')
        end
    end.

Definition emit (e : Effect) : M unit := fun w =>
  (Ok tt, mkWorld (grabbed w) (HANDLER w) (trace w ++ [e])).

Definition log (lvl : Level) (msg : LogMsg) : M unit := emit (ELog lvl msg).

Definition get_handler : M MH.t := fun w => (Ok (HANDLER w), w).

Definition set_handler (h : MH.t) : M unit := fun w =>
  (Ok tt, mkWorld (grabbed w) h (trace w)).

Definition lift_result {A} (r : Result A) : M A := fun w => (r, w).

Fixpoint for_each {A S} (xs : list A) (body : A -> S -> M S) (s : S) : M S :=
  match xs with
  | [] => ret s
  | x :: xs' => let* s' := body x s in for_each xs' body s'
  end.

Definition exec {A} (c : M A) (w : World) : World := snd (c w).
Definition result {A} (c : M A) (w : World) : Result A := fst (c w).

(** ** events.KeyHandler *)

(** [pywo.core.events], the base class of the handlers, is not part of
    this file. Its [grab_keys] and [ungrab_keys] register (deregister)
    every combo of the handler's [keys] with the window manager for
    delivery to that handler. The [window] argument is [WM] at every call
    site and is left implicit. *)

(** Modelled from the spec: the adapter's [grab(combo, target)], which
    registers a combo for delivery to a handler. *)
Definition grab_key (h : HandlerId) (k : KeyCombo) : M unit := fun w =>
  (Ok tt, mkWorld ({[ (h, k) ]} ∪ grabbed w) (HANDLER w)
                  (trace w ++ [EGrabKey h k])).

(** Modelled from the spec: the adapter's [ungrab(combo, target)]. *)
Definition ungrab_key (h : HandlerId) (k : KeyCombo) : M unit := fun w =>
  (Ok tt, mkWorld (grabbed w ∖ {[ (h, k) ]}) (HANDLER w)
                  (trace w ++ [EUngrabKey h k])).

(** Modelled from the spec: [events.KeyHandler.grab_keys], registering
    every combo of [keys] for the handler. *)
Fixpoint KeyHandler_grab_keys (h : HandlerId) (keys : list KeyCombo) : M unit :=
  match keys with
  | [] => ret tt
  | k :: keys' => grab_key h k ;;; KeyHandler_grab_keys h keys'
  end.

(** Modelled from the spec: [events.KeyHandler.ungrab_keys],
    deregistering every combo of [keys] for the handler. *)
Fixpoint KeyHandler_ungrab_keys (h : HandlerId) (keys : list KeyCombo) : M unit :=
  match keys with
  | [] => ret tt
  | k :: keys' => ungrab_key h k ;;; KeyHandler_ungrab_keys h keys'
  end.

(** ** PywoModeKeyPressHandler *)

Definition get_pywo_handler : M PH.t := fun w =>
  (Ok (MH.pywo_handler (HANDLER w)), w).

Definition set_pywo_handler (p : PH.t) : M unit := fun w =>
  (Ok tt, mkWorld (grabbed w) (MH.with_pywo_handler p (HANDLER w)) (trace w)).

(** [self.mappings[(mod, keycode)] = (action, section)] *)
Definition set_mapping (k : KeyCombo) (v : Action * option Sec.t) : M unit :=
  let* p := get_pywo_handler in
  set_pywo_handler (PH.mk (PH.config p) (<[k := v]> (PH.mappings p))
                          (PH.keys p) (PH.numlock p) (PH.capslock p)).

Section Service.

Context (E : Env).

(** [PywoModeKeyPressHandler.key_press] *)
Definition PywoModeKeyPressHandler_key_press (event : Event) : M unit :=
  let* self := get_pywo_handler in
  match PH.mappings self !! (modifiers event, keycode event) with
  | None => ret tt
  | Some (action, section) =>
      log LDebug (MsgEvent event) ;;;
      try_except
        (emit EActiveWindow ;;;
         let* window := lift_result (active_window E) in
         emit (EGetKwargs action section) ;;;
         let* kwargs := lift_result (get_kwargs E action (PH.config self) section) in
         emit (ECall action window kwargs) ;;;
         lift_result (call E action window kwargs))
        (fun exc =>
           match exc with
           | ActionException _ => Some (log LError (MsgExn exc))
           | BaseExceptionOnly _ => None
           | _ => Some (log LException (MsgExn exc))
           end)
  end.

(** The body of the [for section in config.sections.values()] loop. The
    Python locals [mod] and [keycode] are function-scoped: [loc] carries
    their current binding ([None] while they are unbound) from one
    iteration to the next. *)
Definition bind_section (action : Action) (mask : string) (section : Sec.t)
    (loc : option KeyCombo) : M (option KeyCombo) :=
  match truthy (Sec.key section) with
  | Some key =>
      if bool_decide (name action ∈ Sec.ignored_actions section) then ret loc
      else
        let* loc' :=
          try_except
            (match str2modifiers_keycode E mask (Some key) with
             | Some mk => ret (Some mk)
             | None => raise ValueError
             end)
            (fun exc =>
               match exc with
               | ValueError =>
                   Some (log LException (MsgInvalidKey section) ;;; ret loc)
               | _ => None
               end) in
        match loc' with
        | Some mk => set_mapping mk (action, Some section) ;;; ret loc'
        | None => raise UnboundLocalError
        end
  | None => ret loc
  end.

(** The body of the [for action in actions.manager.get_all()] loop. *)
Definition bind_action (config : Cfg.t) (action : Action)
    (loc : option KeyCombo) : M (option KeyCombo) :=
  if need_section action then
    match truthy (Cfg.keys config !! name action) with
    | None => ret loc
    | Some mask => for_each (Cfg.sections config) (bind_section action mask) loc
    end
  else
    match truthy (Cfg.keys config !! name action) with
    | Some key =>
        if bool_decide (action ∈ Cfg.ignored_actions config) then ret loc
        else
          match str2modifiers_keycode E key None with
          | Some mk => set_mapping mk (action, None) ;;; ret (Some mk)
          | None => raise ValueError
          end
    | None => ret loc
    end.

(** [PywoModeKeyPressHandler.set_config] *)
Definition PywoModeKeyPressHandler_set_config (config : Cfg.t) : M unit :=
  let* self := get_pywo_handler in
  set_pywo_handler (PH.mk (Some config) ∅ (PH.keys self)
                          (PH.numlock self) (PH.capslock self)) ;;;
  for_each (get_all E) (bind_action config) None ;;;
  let* self := get_pywo_handler in
  set_pywo_handler (PH.mk (PH.config self) (PH.mappings self)
                          ((map_to_list (PH.mappings self)).*1)
                          (Cfg.numlock config) (Cfg.capslock config)).

(** ** ModalKeyHandler *)

(** [ModalKeyHandler.grab_keys] *)
Definition grab_keys : M unit :=
  let* self := get_handler in
  if MH.use_modal_mode self then KeyHandler_grab_keys HModal (MH.keys self)
  else KeyHandler_grab_keys HPywo (PH.keys (MH.pywo_handler self)).

(** [ModalKeyHandler.ungrab_keys] *)
Definition ungrab_keys : M unit :=
  let* self := get_handler in
  (if MH.in_pywo_mode self && MH.use_modal_mode self
   then KeyHandler_ungrab_keys HEscape (MH.escape_keys self)
   else ret tt) ;;;
  if MH.in_pywo_mode self
  then KeyHandler_ungrab_keys HPywo (PH.keys (MH.pywo_handler self))
  else KeyHandler_ungrab_keys HModal (MH.keys self).

Definition set_in_pywo_mode (b : bool) : M unit :=
  let* h := get_handler in set_handler (MH.with_in_pywo_mode b h).

Definition set_use_modal_mode (b : bool) : M unit :=
  let* h := get_handler in set_handler (MH.with_use_modal_mode b h).

(** The feedback both transitions start with. *)
Definition feedback (led_on : bool) : M unit :=
  let* self := get_handler in
  (if MH.scroll_lock_led self then emit (EScrollLockLed led_on) else ret tt) ;;;
  if MH.visual_bell self
  then emit (EVisualBell (MH.bell_color self) (MH.bell_width self)
                         (MH.bell_duration self))
  else ret tt.

(** [ModalKeyHandler.pywo_mode] *)
Definition pywo_mode (event : Event) : M unit :=
  log LDebug (MsgEvent event) ;;;
  feedback true ;;;
  let* self := get_handler in
  KeyHandler_grab_keys HPywo (PH.keys (MH.pywo_handler self)) ;;;
  KeyHandler_grab_keys HEscape (MH.escape_keys self) ;;;
  set_in_pywo_mode true.

(** [ModalKeyHandler.normal_mode] *)
Definition normal_mode (event : Event) : M unit :=
  log LDebug (MsgEvent event) ;;;
  feedback false ;;;
  ungrab_keys ;;;
  set_in_pywo_mode false.

(** [ModalKeyHandler.key_press] *)
Definition key_press (event : Event) : M unit :=
  let* self := get_handler in
  if bool_decide ((modifiers event, keycode event) ∈ MH.keys self) then
    if MH.in_pywo_mode self then normal_mode event else pywo_mode event
  else ret tt.

(** [ModalKeyHandler.set_config] *)
Definition set_config (config : Cfg.t) : M unit :=
  PywoModeKeyPressHandler_set_config config ;;;
  match truthy (Cfg.keys config !! "pywo_mode") with
  | None => set_use_modal_mode false
  | Some pywo_mode_key =>
      match str2modifiers_keycode E pywo_mode_key None with
      | None => raise ValueError
      | Some mk =>
          let* h := get_handler in
          set_handler
            (MH.mk (Cfg.modal_mode config) (MH.in_pywo_mode h)
                   (MH.pywo_handler h) (MH.escape_keys h)
                   (Cfg.visual_bell config) (Cfg.bell_color config)
                   (Cfg.bell_width config) (Cfg.bell_duration config)
                   (Cfg.scroll_lock_led config) [mk]
                   (Cfg.numlock config) (Cfg.capslock config)) ;;;
          if Cfg.modal_mode config then ret tt else set_in_pywo_mode true
      end
  end.

(** ** Module-level entry points *)

Definition setup (config : Cfg.t) : M unit := set_config config.

Definition start : M unit :=
  log LInfo (MsgText "Registering keyboard shortcuts") ;;;
  grab_keys.

Definition stop : M unit :=
  emit (EScrollLockLed false) ;;;
  emit EFlush ;;;
  ungrab_keys ;;;
  log LInfo (MsgText "Keyboard shortcuts unregistered").

End Service.

(** [HANDLER = ModalKeyHandler()] with [esc] the combo that
    [WM.str2modifiers_keycode('Escape')] returned; the base class leaves
    [keys] empty and the lock flags at 0. *)
Definition new_PywoModeKeyPressHandler : PH.t := PH.mk None ∅ [] 0 0.

Definition new_ModalKeyHandler (esc : KeyCombo) : MH.t :=
  MH.mk false false new_PywoModeKeyPressHandler [esc]
        false "white" 0 0 false [] 0 0.

Definition initial_world (esc : KeyCombo) : World :=
  mkWorld ∅ (new_ModalKeyHandler esc) [].

(** ** Event delivery and runs of the service *)

Section Runs.

Context (E : Env).

(** What each handler does with a key press: [HANDLER.key_press],
    [pywo_handler.key_press], and for the escape handler the
    [key_press=self.normal_mode] it was constructed with. *)
Definition handler_key_press (h : HandlerId) (event : Event) : M unit :=
  match h with
  | HModal => key_press event
  | HPywo => PywoModeKeyPressHandler_key_press E event
  | HEscape => normal_mode event
  end.

(** Modelled from the spec: the windowing system's event loop, which
    delivers a key press to a handler that currently holds the grab of its
    combo, and to no other. *)
Definition deliver (h : HandlerId) (event : Event) : M unit := fun w =>
  if bool_decide ((h, combo event) ∈ grabbed w)
  then handler_key_press h event w
  else (Ok tt, w).

(** The calls the surrounding process and the event loop make. *)
Inductive Call :=
  | CSetup (config : Cfg.t)
  | CStart
  | CStop
  | CKeyPress (h : HandlerId) (event : Event).

Definition do_call (c : Call) : M unit :=
  match c with
  | CSetup config => setup E config
  | CStart => start
  | CStop => stop
  | CKeyPress h event => deliver h event
  end.

(** The world after a sequence of calls; a call that raises leaves the
    world as it was at the raise and the next call proceeds from there. *)
Fixpoint run (cs : list Call) (w : World) : World :=
  match cs with
  | [] => w
  | c :: cs' => run cs' (exec (do_call c) w)
  end.

Definition is_setup (c : Call) : bool :=
  match c with CSetup _ => true | _ => false end.

(** The combos [PywoModeKeyPressHandler.set_config] asks the window
    manager for, per action, under the same guards as the code. *)
Definition section_combos (action : Action) (mask : string)
    (section : Sec.t) : list KeyCombo :=
  match truthy (Sec.key section) with
  | Some key =>
      if bool_decide (name action ∈ Sec.ignored_actions section) then []
      else match str2modifiers_keycode E mask (Some key) with
           | Some mk => [mk]
           | None => []
           end
  | None => []
  end.

Definition action_combos (config : Cfg.t) (action : Action) : list KeyCombo :=
  match truthy (Cfg.keys config !! name action) with
  | None => []
  | Some s =>
      if need_section action
      then flat_map (section_combos action s) (Cfg.sections config)
      else if bool_decide (action ∈ Cfg.ignored_actions config) then []
           else match str2modifiers_keycode E s None with
                | Some mk => [mk]
                | None => []
                end
  end.

Definition binding_combos (config : Cfg.t) : list KeyCombo :=
  flat_map (action_combos config) (get_all E).

(** The combo of the configured mode-entry key, when there is one. *)
Definition mode_combos (config : Cfg.t) : list KeyCombo :=
  match truthy (Cfg.keys config !! "pywo_mode") with
  | Some s => match str2modifiers_keycode E s None with
              | Some mk => [mk]
              | None => []
              end
  | None => []
  end.

(** No combo serves two roles: under [config] the mode-entry combo is one
    of [modes], every binding combo one of [binds], and neither list holds
    the escape combo or a combo of the other. *)
Definition roles_disjoint (esc : KeyCombo) (modes binds : list KeyCombo) : bool :=
  bool_decide (esc ∉ modes) && bool_decide (esc ∉ binds)
  && forallb (fun k => bool_decide (k ∉ binds)) modes.

Definition config_in_roles (modes binds : list KeyCombo) (config : Cfg.t) : bool :=
  forallb (fun k => bool_decide (k ∈ modes)) (mode_combos config)
  && forallb (fun k => bool_decide (k ∈ binds)) (binding_combos config).

Definition call_in_roles (modes binds : list KeyCombo) (c : Call) : bool :=
  match c with
  | CSetup config => config_in_roles modes binds config
  | _ => true
  end.

End Runs.

(** No combo is grabbed for two different handlers. *)
Definition single_owner (w : World) : Prop :=
  forall (k : KeyCombo) (h1 h2 : HandlerId),
    (h1, k) ∈ grabbed w -> (h2, k) ∈ grabbed w -> h1 = h2.

(** The severity [PywoModeKeyPressHandler.key_press] logs a caught
    exception with. *)
Definition caught_level (exc : Exn) : Level :=
  match exc with
  | ActionException _ => LError
  | _ => LException
  end.

(** The outcome of the three calls inside the [try] of
    [PywoModeKeyPressHandler.key_press]. *)
Definition dispatch_outcome (E : Env) (action : Action)
    (config : option Cfg.t) (section : option Sec.t) : Result unit :=
  match active_window E with
  | Raise e => Raise e
  | Ok window =>
      match get_kwargs E action config section with
      | Raise e => Raise e
      | Ok kwargs => call E action window kwargs
      end
  end.

(** The registrations of a handler for a list of combos. *)
Definition owned (h : HandlerId) (keys : list KeyCombo) : gset (HandlerId * KeyCombo) :=
  list_to_set (pair h <$> keys).

(** The calls [feedback] makes, by the handler's settings. *)
Definition feedback_trace (self : MH.t) (led_on : bool) : list Effect :=
  (if MH.scroll_lock_led self then [EScrollLockLed led_on] else []) ++
  (if MH.visual_bell self
   then [EVisualBell (MH.bell_color self) (MH.bell_width self)
                     (MH.bell_duration self)]
   else []).

(** The registrations [ModalKeyHandler.ungrab_keys] removes, and the
    calls it makes, by the handler's state. *)
Definition released (self : MH.t) : gset (HandlerId * KeyCombo) :=
  (if MH.in_pywo_mode self && MH.use_modal_mode self
   then owned HEscape (MH.escape_keys self) else ∅)
  ∪ (if MH.in_pywo_mode self
     then owned HPywo (PH.keys (MH.pywo_handler self))
     else owned HModal (MH.keys self)).

Definition ungrab_trace (self : MH.t) : list Effect :=
  (if MH.in_pywo_mode self && MH.use_modal_mode self
   then EUngrabKey HEscape <$> MH.escape_keys self else []) ++
  (if MH.in_pywo_mode self
   then EUngrabKey HPywo <$> PH.keys (MH.pywo_handler self)
   else EUngrabKey HModal <$> MH.keys self).

(** What a bound key press adds to the trace, and how it ends, read off
    the body of [PywoModeKeyPressHandler.key_press]: an exception of the
    [Exception] hierarchy is logged and swallowed, any other leaves the
    method unlogged. *)
Definition log_caught (exc : Exn) : Effect :=
  ELog (caught_level exc) (MsgExn exc).

Definition logged (exc : Exn) : list Effect :=
  if is_Exception exc then [log_caught exc] else [].

Definition dispatch_result (E : Env) (action : Action)
    (config : option Cfg.t) (section : option Sec.t) : Result unit :=
  match dispatch_outcome E action config section with
  | Ok _ => Ok tt
  | Raise exc => if is_Exception exc then Ok tt else Raise exc
  end.

Definition dispatch_trace (E : Env) (event : Event) (action : Action)
    (config : option Cfg.t) (section : option Sec.t) : list Effect :=
  [ELog LDebug (MsgEvent event); EActiveWindow] ++
  match active_window E with
  | Raise e => logged e
  | Ok window =>
      EGetKwargs action section ::
      match get_kwargs E action config section with
      | Raise e => logged e
      | Ok kwargs =>
          ECall action window kwargs ::
          match call E action window kwargs with
          | Raise e => logged e
          | Ok _ => []
          end
      end
  end.

(** ** A small window manager and configurations to run the service on *)

Module Demo.

Definition str2mk (code : string) (key : option string) : option KeyCombo :=
  match key with
  | None =>
      if bool_decide (code = "Escape") then Some (0, 9)
      else if bool_decide (code = "Alt-p") then Some (8, 33)
      else if bool_decide (code = "Super-m") then Some (64, 58)
      else None
  | Some k =>
      if bool_decide (code = "Super") then
        if bool_decide (k = "h") then Some (64, 43)
        else if bool_decide (k = "l") then Some (64, 46)
        else None
      else None
  end.

Definition esc : KeyCombo := (0, 9).
Definition alt_p : Event := mkEvent 8 33.
Definition super_m : Event := mkEvent 64 58.
Definition super_h : Event := mkEvent 64 43.
Definition escape : Event := mkEvent 0 9.

Definition maximize : Action := mkAction "maximize" false.
Definition move : Action := mkAction "move" true.

(** Actions that succeed. *)
Definition env : Env :=
  mkEnv str2mk (Ok 7) [maximize; move]
        (fun _ _ _ => Ok []) (fun _ _ _ => Ok tt).

(** Actions that fail with the given exception. *)
Definition failing_env (exc : Exn) : Env :=
  mkEnv str2mk (Ok 7) [maximize; move]
        (fun _ _ _ => Ok []) (fun _ _ _ => Raise exc).

Definition left : Sec.t := Sec.mk "left" (Some "h") [].
Definition right : Sec.t := Sec.mk "right" (Some "l") [].
Definition bad : Sec.t := Sec.mk "bad" (Some "??") [].

Definition config (keys : list (string * string)) (sections : list Sec.t)
    (modal : bool) : Cfg.t :=
  Cfg.mk (list_to_map keys) sections [] 0 0 modal true "white" 2 3 true.

(** Modal operation, all keys valid. *)
Definition modal : Cfg.t :=
  config [("pywo_mode", "Alt-p"); ("maximize", "Super-m"); ("move", "Super")]
         [left; right] true.

(** The same with the modal flag off. *)
Definition always_on : Cfg.t :=
  config [("pywo_mode", "Alt-p"); ("maximize", "Super-m"); ("move", "Super")]
         [left; right] false.

(** No mode-entry key. *)
Definition no_mode_key : Cfg.t :=
  config [("maximize", "Super-m"); ("move", "Super")] [left; right] true.

(** A section whose key does not parse, after one whose key does. *)
Definition bad_section : Cfg.t :=
  config [("move", "Super")] [left; bad] true.

(** A section whose key does not parse, first in line. *)
Definition bad_section_first : Cfg.t :=
  config [("move", "Super")] [bad; left] true.

(** A global action whose key does not parse. *)
Definition bad_global : Cfg.t :=
  config [("maximize", "Bogus"); ("move", "Super")] [left; right] true.

(** The mode-entry key doubles as the key of an action. *)
Definition shared_key : Cfg.t :=
  config [("pywo_mode", "Alt-p"); ("maximize", "Alt-p")] [] true.

Definition w0 : World := initial_world esc.

(** [setup(modal)], then [start()]. *)
Definition started : World := run env [CSetup modal; CStart] w0.

(** ... then the mode-entry key is pressed. *)
Definition in_mode : World :=
  run env [CSetup modal; CStart; CKeyPress HModal alt_p] w0.



End Demo.

(** ** Hoare triples over the monad *)

(** From a world satisfying [P], [c] either returns [a] in a world
    satisfying [Q a], or raises in a world satisfying [X]. *)
Definition hoare {A} (P : World -> Prop) (c : M A)
    (Q : A -> World -> Prop) (X : World -> Prop) : Prop :=
  forall w, P w ->
    match c w with
    | (Ok a, w') => Q a w'
    | (Raise _, w') => X w'
    end.

(** The fields of [HANDLER.pywo_handler] in a world. *)
Definition pywo_handler_of (w : World) : PH.t := MH.pywo_handler (HANDLER w).

(** What [PywoModeKeyPressHandler.set_config] may change of a world [w0]:
    the fields of [pywo_handler] and the trace, nothing else. *)
Definition pywo_handler_only (w0 w : World) : Prop :=
  grabbed w = grabbed w0
  /\ HANDLER w = MH.with_pywo_handler (MH.pywo_handler (HANDLER w)) (HANDLER w0).

(** The state of a table build started in [w0]: only [pywo_handler]
    differs, its [keys] list is still the old one, and every key of
    [mappings] is one of [B]. *)
Definition building (w0 : World) (B : list KeyCombo) (w : World) : Prop :=
  pywo_handler_only w0 w
  /\ PH.keys (pywo_handler_of w) = PH.keys (pywo_handler_of w0)
  /\ forall k, is_Some (PH.mappings (pywo_handler_of w) !! k) -> k ∈ B.

(** Every handler's key list, and every grab, stays within the handler's
    role: mode-entry combos for [HANDLER], binding combos for its
    [pywo_handler], the escape combo for its [escape_handler]. *)
Definition in_role (esc : KeyCombo) (modes binds : list KeyCombo)
    (h : HandlerId) (k : KeyCombo) : Prop :=
  match h with
  | HModal => k ∈ modes
  | HPywo => k ∈ binds
  | HEscape => k = esc
  end.

Definition in_roles (esc : KeyCombo) (modes binds : list KeyCombo)
    (w : World) : Prop :=
  (forall k, k ∈ MH.keys (HANDLER w) -> k ∈ modes)
  /\ (forall k, k ∈ PH.keys (pywo_handler_of w) -> k ∈ binds)
  /\ MH.escape_keys (HANDLER w) = [esc]
  /\ forall h k, (h, k) ∈ grabbed w -> in_role esc modes binds h k.

(** Two handler states that differ at most in [in_pywo_mode]. *)
Definition same_settings (h h' : MH.t) : Prop :=
  MH.with_in_pywo_mode false h = MH.with_in_pywo_mode false h'.

(** What holds between one [setup], which left the handler as [h1], and
    the next: the settings are those of [h1]; without modal operation the
    handler stays in PyWO mode; and the grabs are at most [HANDLER]'s own
    keys under modal operation, plus, in PyWO mode, the keys of
    [pywo_handler] and, under modal operation, the escape key. *)
Definition configured_as (h1 : MH.t) (w : World) : Prop :=
  same_settings (HANDLER w) h1
  /\ (MH.use_modal_mode h1 = false -> MH.in_pywo_mode (HANDLER w) = true)
  /\ grabbed w ⊆
       (if MH.use_modal_mode h1 then owned HModal (MH.keys h1) else ∅)
       ∪ (if MH.in_pywo_mode (HANDLER w)
          then owned HPywo (PH.keys (MH.pywo_handler h1))
               ∪ (if MH.use_modal_mode h1
                  then owned HEscape (MH.escape_keys h1) else ∅)
          else ∅).

(** The Python locals [mod], [keycode] are unbound or hold a combo of [B]. *)
Definition bound_in (B : list KeyCombo) (loc : option KeyCombo) : Prop :=
  forall mk, loc = Some mk -> mk ∈ B.

(** ** What a built table may contain *)

(** Whether the parser accepts every key the build of
    [PywoModeKeyPressHandler.set_config] hands it, under the guards of the
    code: per section for an action that needs one, once for a global
    action. *)
Definition section_parses (E : Env) (action : Action) (mask : string)
    (section : Sec.t) : bool :=
  match truthy (Sec.key section) with
  | Some key =>
      orb (bool_decide (name action ∈ Sec.ignored_actions section))
          (match str2modifiers_keycode E mask (Some key) with
           | Some _ => true
           | None => false
           end)
  | None => true
  end.

Definition action_parses (E : Env) (config : Cfg.t) (action : Action) : bool :=
  match truthy (Cfg.keys config !! name action) with
  | None => true
  | Some s =>
      if need_section action
      then forallb (section_parses E action s) (Cfg.sections config)
      else orb (bool_decide (action ∈ Cfg.ignored_actions config))
               (match str2modifiers_keycode E s None with
                | Some _ => true
                | None => false
                end)
  end.

Definition config_parses (E : Env) (config : Cfg.t) : bool :=
  forallb (action_parses E config) (get_all E).

(** Whether the parser accepts the mode-entry key that
    [ModalKeyHandler.set_config] hands it, when one is configured. *)
Definition mode_key_parses (E : Env) (config : Cfg.t) : bool :=
  match truthy (Cfg.keys config !! "pywo_mode") with
  | Some key =>
      match str2modifiers_keycode E key None with
      | Some _ => true
      | None => false
      end
  | None => true
  end.

(** What accounts for an entry [k ↦ (action, section)] of [mappings]
    under [config]: the action is registered and has a key configured; a
    global action is not ignored and its key parses to [k]; a
    section-scoped action is paired with a section of the configuration
    that has a key and does not ignore it, and [k] is what mask and key
    parse to, unless they do not parse, in which case [k] is some combo
    the configuration resolves to. *)
Definition entry_justified (E : Env) (config : Cfg.t) (k : KeyCombo)
    (action : Action) (section : option Sec.t) : Prop :=
  action ∈ get_all E
  /\ k ∈ binding_combos E config
  /\ exists mask, truthy (Cfg.keys config !! name action) = Some mask
     /\ match section with
        | None =>
            need_section action = false
            /\ (action ∉ Cfg.ignored_actions config)
            /\ str2modifiers_keycode E mask None = Some k
        | Some s =>
            need_section action = true
            /\ s ∈ Cfg.sections config
            /\ (name action ∉ Sec.ignored_actions s)
            /\ exists key, truthy (Sec.key s) = Some key
               /\ (str2modifiers_keycode E mask (Some key) = Some k
                   \/ str2modifiers_keycode E mask (Some key) = None)
        end.

(** The one line the build writes to the log: the [log.exception] of a
    section whose key did not parse. *)
Definition invalid_key_log (config : Cfg.t) (e : Effect) : Prop :=
  exists s, s ∈ Cfg.sections config /\ e = ELog LException (MsgInvalidKey s).

(** The state of a table build for [config] started in [w0], once the
    combos [D] have been entered: only [pywo_handler] and the trace differ
    from [w0]; [config] is stored and [keys] and the lock flags are still
    the old ones; every entry is accounted for; every combo of [D] has an
    entry; and the trace grew by invalid-key lines only, by none when
    every key parses. *)
Definition table_inv (E : Env) (config : Cfg.t) (w0 : World)
    (D : list KeyCombo) (w : World) : Prop :=
  pywo_handler_only w0 w
  /\ PH.config (pywo_handler_of w) = Some config
  /\ PH.keys (pywo_handler_of w) = PH.keys (pywo_handler_of w0)
  /\ PH.numlock (pywo_handler_of w) = PH.numlock (pywo_handler_of w0)
  /\ PH.capslock (pywo_handler_of w) = PH.capslock (pywo_handler_of w0)
  /\ (forall k action section,
        PH.mappings (pywo_handler_of w) !! k = Some (action, section) ->
        entry_justified E config k action section)
  /\ (forall k, k ∈ D -> is_Some (PH.mappings (pywo_handler_of w) !! k))
  /\ exists l, trace w = trace w0 ++ l
       /\ Forall (invalid_key_log config) l
       /\ (config_parses E config = true -> l = []).

(** The item assignments [self.mappings[(mod, keycode)] = (action, section)]
    that the build makes when the parser accepts every key, in the order
    it makes them: per action of the registry, per section of the
    configuration for an action that needs one. *)
Definition section_bindings (E : Env) (action : Action) (mask : string)
    (section : Sec.t) : list (KeyCombo * (Action * option Sec.t)) :=
  match truthy (Sec.key section) with
  | Some key =>
      if bool_decide (name action ∈ Sec.ignored_actions section) then []
      else match str2modifiers_keycode E mask (Some key) with
           | Some mk => [(mk, (action, Some section))]
           | None => []
           end
  | None => []
  end.

Definition action_bindings (E : Env) (config : Cfg.t) (action : Action)
    : list (KeyCombo * (Action * option Sec.t)) :=
  match truthy (Cfg.keys config !! name action) with
  | None => []
  | Some s =>
      if need_section action
      then flat_map (section_bindings E action s) (Cfg.sections config)
      else if bool_decide (action ∈ Cfg.ignored_actions config) then []
           else match str2modifiers_keycode E s None with
                | Some mk => [(mk, (action, None))]
                | None => []
                end
  end.

Definition bindings (E : Env) (config : Cfg.t)
    : list (KeyCombo * (Action * option Sec.t)) :=
  flat_map (action_bindings E config) (get_all E).

(** A dictionary after a list of item assignments, made first to last. *)
Definition table_of (l : list (KeyCombo * (Action * option Sec.t)))
    : gmap KeyCombo (Action * option Sec.t) :=
  foldl (fun m kv => <[fst kv := snd kv]> m) ∅ l.

(** Two worlds whose dispatchers hold the same configuration and table,
    and whose traces grew by the same calls since [t1] and [t2]. *)
Definition same_table (t1 t2 : list Effect) (w1 w2 : World) : Prop :=
  PH.config (pywo_handler_of w1) = PH.config (pywo_handler_of w2)
  /\ PH.mappings (pywo_handler_of w1) = PH.mappings (pywo_handler_of w2)
  /\ exists l, trace w1 = t1 ++ l /\ trace w2 = t2 ++ l.

(** [c] does not tell two such worlds apart: same outcome, and the worlds
    it leaves are again related. *)
Definition agree {A} (t1 t2 : list Effect) (c : M A) : Prop :=
  forall w1 w2, same_table t1 t2 w1 w2 ->
    (c w1).1 = (c w2).1 /\ same_table t1 t2 (c w1).2 (c w2).2.

(** ** Basic facts about the monad and the key handlers *)

Ltac unfold_m :=
  unfold exec, result, bind, ret, raise, try_except, log, emit, get_handler,
    set_handler, lift_result, get_pywo_handler, set_pywo_handler,
    set_in_pywo_mode, set_use_modal_mode, set_mapping in *.

(** Closed goals: equalities by evaluation, decidable propositions by
    evaluating their decision. *)
Ltac by_compute :=
  first [ vm_compute; reflexivity
        | refine (bool_decide_unpack _ _); vm_compute; reflexivity ].

Lemma world_eta (w : World) : mkWorld (grabbed w) (HANDLER w) (trace w) = w.
Proof. by destruct w. Qed.

Lemma KeyHandler_grab_keys_spec (h : HandlerId) (keys : list KeyCombo) (w : World) :
  KeyHandler_grab_keys h keys w =
    (Ok tt, mkWorld (owned h keys ∪ grabbed w) (HANDLER w)
                    (trace w ++ (EGrabKey h <$> keys))).
Proof.
  unfold owned. revert w. induction keys as [|k keys IH]; intros w; simpl.
  - unfold ret. f_equal. rewrite app_nil_r, union_empty_l_L. by destruct w.
  - unfold bind, grab_key. rewrite IH. simpl. f_equal. f_equal.
    + set_solver.
    + by rewrite <- app_assoc.
Qed.

Lemma KeyHandler_ungrab_keys_spec (h : HandlerId) (keys : list KeyCombo) (w : World) :
  KeyHandler_ungrab_keys h keys w =
    (Ok tt, mkWorld (grabbed w ∖ owned h keys) (HANDLER w)
                    (trace w ++ (EUngrabKey h <$> keys))).
Proof.
  unfold owned. revert w. induction keys as [|k keys IH]; intros w; simpl.
  - unfold ret. f_equal. rewrite app_nil_r, difference_empty_L. by destruct w.
  - unfold bind, ungrab_key. rewrite IH. simpl. f_equal. f_equal.
    + set_solver.
    + by rewrite <- app_assoc.
Qed.

(** ** The dispatcher's [key_press] *)

(** C9: a key press whose (modifiers, keycode) pair is not a key of
    [mappings] leaves the whole world as it was: nothing is logged, the
    active window is not asked for, no action is called, and the call
    returns normally. *)
Theorem key_press_unbound_is_noop (E : Env) (event : Event) (w : World) :
  PH.mappings (MH.pywo_handler (HANDLER w)) !! (modifiers event, keycode event) = None ->
  PywoModeKeyPressHandler_key_press E event w = (Ok tt, w).
Proof.
  intros Hnone. unfold PywoModeKeyPressHandler_key_press, bind, get_pywo_handler.
  by rewrite Hnone.
Qed.

Lemma key_press_unbound_is_noop_witness :
  PywoModeKeyPressHandler_key_press Demo.env Demo.alt_p
      (exec (setup Demo.env Demo.modal) Demo.w0)
    = (Ok tt, exec (setup Demo.env Demo.modal) Demo.w0).
Proof. apply key_press_unbound_is_noop. vm_compute. reflexivity. Defined.

Lemma key_press_bound (E : Env) (event : Event) (w : World) action section :
  PH.mappings (MH.pywo_handler (HANDLER w)) !! (modifiers event, keycode event)
    = Some (action, section) ->
  PywoModeKeyPressHandler_key_press E event w =
    (dispatch_result E action (PH.config (MH.pywo_handler (HANDLER w))) section,
     mkWorld (grabbed w) (HANDLER w)
       (trace w ++ dispatch_trace E event action
                     (PH.config (MH.pywo_handler (HANDLER w))) section)).
Proof.
  intros Hlook.
  unfold PywoModeKeyPressHandler_key_press, dispatch_trace, dispatch_result,
    dispatch_outcome, logged.
  unfold bind at 1. unfold get_pywo_handler at 1. rewrite Hlook.
  unfold_m. simpl.
  destruct (active_window E) as [window|e1]; simpl.
  2: { destruct e1; simpl; by rewrite <- ?app_assoc. }
  destruct (get_kwargs E action _ section) as [kwargs|e2]; simpl.
  2: { destruct e2; simpl; by rewrite <- ?app_assoc. }
  destruct (call E action window kwargs) as [[]|e3]; simpl.
  - by rewrite <- !app_assoc.
  - destruct e3; simpl; by rewrite <- ?app_assoc.
Qed.

Lemma dispatch_trace_last (E : Env) event action config section exc :
  dispatch_outcome E action config section = Raise exc ->
  is_Exception exc = true ->
  last (dispatch_trace E event action config section) = Some (log_caught exc).
Proof.
  unfold dispatch_outcome, dispatch_trace, logged.
  destruct (active_window E) as [window|e1]; [|by intros [= ->] ->].
  destruct (get_kwargs E action config section) as [kwargs|e2];
    [|by intros [= ->] ->].
  destruct (call E action window kwargs) as [[]|e3]; [done|by intros [= ->] ->].
Qed.

Lemma dispatcher_key_press_frame (E : Env) (event : Event) (w : World) :
  grabbed (exec (PywoModeKeyPressHandler_key_press E event) w) = grabbed w
  /\ HANDLER (exec (PywoModeKeyPressHandler_key_press E event) w) = HANDLER w.
Proof.
  unfold exec.
  destruct (PH.mappings (MH.pywo_handler (HANDLER w)) !! (modifiers event, keycode event))
    as [[action section]|] eqn:Hlook.
  - by rewrite (key_press_bound E event w action section Hlook).
  - unfold PywoModeKeyPressHandler_key_press, bind, get_pywo_handler.
    by rewrite Hlook.
Qed.

(** C6 (as amended): [PywoModeKeyPressHandler.key_press] touches neither
    the grabs nor the handler, and propagates no exception of the
    [Exception] hierarchy. On an unbound event, and on a bound one when
    the three calls inside the [try] (the active-window query,
    [get_kwargs], the action itself) return, it returns normally. When
    one of them raises an exception of the [Exception] hierarchy, the last
    thing the call does is log it, with [log.error] for an
    [ActionException] and with [log.exception] for anything else, and it
    returns normally. An exception outside that hierarchy
    ([KeyboardInterrupt], [SystemExit]) propagates to the caller. *)
Theorem key_press_contains_exceptions (E : Env) (event : Event) (w : World) :
  let self := MH.pywo_handler (HANDLER w) in
  let w' := exec (PywoModeKeyPressHandler_key_press E event) w in
  grabbed w' = grabbed w
  /\ HANDLER w' = HANDLER w
  /\ (PH.mappings self !! combo event = None ->
      result (PywoModeKeyPressHandler_key_press E event) w = Ok tt)
  /\ forall action section,
       PH.mappings self !! combo event = Some (action, section) ->
       match dispatch_outcome E action (PH.config self) section with
       | Ok _ => result (PywoModeKeyPressHandler_key_press E event) w = Ok tt
       | Raise exc =>
           if is_Exception exc
           then result (PywoModeKeyPressHandler_key_press E event) w = Ok tt
                /\ last (trace w') = Some (ELog (caught_level exc) (MsgExn exc))
           else result (PywoModeKeyPressHandler_key_press E event) w = Raise exc
       end.
Proof.
  cbv zeta. unfold exec, result, combo.
  destruct (PH.mappings (MH.pywo_handler (HANDLER w)) !! (modifiers event, keycode event))
    as [[action section]|] eqn:Hlook.
  - rewrite (key_press_bound E event w action section Hlook). cbn [fst snd].
    split; [done|]. split; [done|]. split.
    { intros Hnone. pose proof (eq_trans (eq_sym Hlook) Hnone). discriminate. }
    intros a s Heq.
    pose proof (eq_trans (eq_sym Hlook) Heq) as Hsame. simplify_eq.
    unfold dispatch_result.
    destruct (dispatch_outcome E a _ s) as [[]|exc] eqn:Hout; [done|].
    destruct (is_Exception exc) eqn:Hexc; [|done]. split; [done|].
    apply (dispatch_trace_last E event) in Hout; [|done].
    cbn [trace]. by rewrite last_app, Hout.
  - unfold PywoModeKeyPressHandler_key_press, bind, get_pywo_handler.
    rewrite Hlook. cbn [fst snd ret].
    split; [done|]. split; [done|]. split; [done|].
    intros a s Heq. pose proof (eq_trans (eq_sym Hlook) Heq). discriminate.
Qed.

Lemma key_press_contains_exceptions_witness :
  result (PywoModeKeyPressHandler_key_press
            (Demo.failing_env (ActionException "no such window")) Demo.super_m)
         (exec (setup Demo.env Demo.modal) Demo.w0) = Ok tt
  /\ last (trace (exec (PywoModeKeyPressHandler_key_press
                          (Demo.failing_env (ActionException "no such window"))
                          Demo.super_m)
                       (exec (setup Demo.env Demo.modal) Demo.w0)))
     = Some (ELog LError (MsgExn (ActionException "no such window"))).
Proof.
  refine (proj2 (proj2 (proj2
    (key_press_contains_exceptions
       (Demo.failing_env (ActionException "no such window"))
       Demo.super_m (exec (setup Demo.env Demo.modal) Demo.w0))))
    Demo.maximize None _).
  vm_compute. reflexivity.
Defined.

(** C6 fails for an exception outside the [Exception] hierarchy: when the
    action bound to the pressed combo raises [KeyboardInterrupt], neither
    [except] clause catches it; the call ends with the exception after the
    action call, without a log line. *)
Lemma interrupt_escapes_key_press :
  PH.mappings (pywo_handler_of (exec (setup Demo.env Demo.modal) Demo.w0))
    !! combo Demo.super_m = Some (Demo.maximize, None)
  /\ PywoModeKeyPressHandler_key_press
       (Demo.failing_env (BaseExceptionOnly "KeyboardInterrupt")) Demo.super_m
       (exec (setup Demo.env Demo.modal) Demo.w0)
     = (Raise (BaseExceptionOnly "KeyboardInterrupt"),
        mkWorld (grabbed (exec (setup Demo.env Demo.modal) Demo.w0))
          (HANDLER (exec (setup Demo.env Demo.modal) Demo.w0))
          (trace (exec (setup Demo.env Demo.modal) Demo.w0) ++
             [ELog LDebug (MsgEvent Demo.super_m); EActiveWindow;
              EGetKwargs Demo.maximize None; ECall Demo.maximize 7 []])).
Proof. split; by_compute. Qed.

(** ** The modal handler's transitions *)

Lemma feedback_spec (led_on : bool) (w : World) :
  feedback led_on w =
    (Ok tt, mkWorld (grabbed w) (HANDLER w)
                    (trace w ++ feedback_trace (HANDLER w) led_on)).
Proof.
  unfold feedback, feedback_trace. unfold_m.
  destruct (MH.scroll_lock_led (HANDLER w)), (MH.visual_bell (HANDLER w)); simpl;
    rewrite <- ?app_assoc, ?app_nil_r; try done. by destruct w.
Qed.

Lemma ungrab_keys_spec (w : World) :
  ungrab_keys w =
    (Ok tt, mkWorld (grabbed w ∖ released (HANDLER w)) (HANDLER w)
                    (trace w ++ ungrab_trace (HANDLER w))).
Proof.
  unfold ungrab_keys, released, ungrab_trace.
  unfold bind at 1. unfold get_handler at 1. unfold bind.
  destruct (MH.in_pywo_mode (HANDLER w)) eqn:Hin,
           (MH.use_modal_mode (HANDLER w)) eqn:Hmod; simpl;
    rewrite ?KeyHandler_ungrab_keys_spec; unfold ret; simpl;
    rewrite ?KeyHandler_ungrab_keys_spec; simpl;
    rewrite <- ?app_assoc; f_equal; f_equal; set_solver.
Qed.

Lemma pywo_mode_spec (event : Event) (w : World) :
  pywo_mode event w =
    (Ok tt,
     mkWorld (owned HEscape (MH.escape_keys (HANDLER w))
              ∪ (owned HPywo (PH.keys (MH.pywo_handler (HANDLER w))) ∪ grabbed w))
             (MH.with_in_pywo_mode true (HANDLER w))
             (trace w ++ ELog LDebug (MsgEvent event)
                :: feedback_trace (HANDLER w) true
                ++ (EGrabKey HPywo <$> PH.keys (MH.pywo_handler (HANDLER w)))
                ++ (EGrabKey HEscape <$> MH.escape_keys (HANDLER w)))).
Proof.
  unfold pywo_mode. unfold bind at 1. unfold log, emit at 1.
  unfold bind at 1. rewrite feedback_spec.
  unfold bind at 1. unfold get_handler at 1. simpl.
  unfold bind at 1. rewrite KeyHandler_grab_keys_spec.
  unfold bind at 1. rewrite KeyHandler_grab_keys_spec. simpl.
  unfold set_in_pywo_mode, bind, get_handler, set_handler. simpl.
  f_equal. f_equal. rewrite <- !app_assoc. done.
Qed.

Lemma normal_mode_spec (event : Event) (w : World) :
  normal_mode event w =
    (Ok tt,
     mkWorld (grabbed w ∖ released (HANDLER w))
             (MH.with_in_pywo_mode false (HANDLER w))
             (trace w ++ ELog LDebug (MsgEvent event)
                :: feedback_trace (HANDLER w) false
                ++ ungrab_trace (HANDLER w))).
Proof.
  unfold normal_mode. unfold bind at 1. unfold log, emit at 1.
  unfold bind at 1. rewrite feedback_spec.
  unfold bind at 1. rewrite ungrab_keys_spec. simpl.
  unfold set_in_pywo_mode, bind, get_handler, set_handler. simpl.
  f_equal. f_equal. rewrite <- !app_assoc. done.
Qed.

Lemma key_press_spec (event : Event) (w : World) :
  key_press event w =
    if bool_decide (combo event ∈ MH.keys (HANDLER w)) then
      if MH.in_pywo_mode (HANDLER w) then normal_mode event w
      else pywo_mode event w
    else (Ok tt, w).
Proof.
  unfold key_press, combo, bind, get_handler.
  destruct (bool_decide _); [|done].
  by destruct (MH.in_pywo_mode (HANDLER w)).
Qed.






(** ** Rules for Hoare triples *)

Section HoareRules.

Context {A B : Type}.

Lemma hoare_ret (a : A) (P : World -> Prop) Q X :
  (forall w, P w -> Q a w) -> hoare P (ret a) Q X.
Proof. intros H w Hw. simpl. auto. Qed.

Lemma hoare_raise (e : Exn) (P : World -> Prop) (Q : A -> World -> Prop) X :
  (forall w, P w -> X w) -> hoare P (raise e) Q X.
Proof. intros H w Hw. simpl. auto. Qed.

Lemma hoare_bind (c : M A) (k : A -> M B) P Q R X :
  hoare P c Q X -> (forall a, hoare (Q a) (k a) R X) ->
  hoare P (bind c k) R X.
Proof.
  intros Hc Hk w Hw. unfold bind. specialize (Hc w Hw).
  destruct (c w) as [[a|e] w']; [|done]. by apply Hk.
Qed.

Lemma hoare_conseq (c : M A) (P P' : World -> Prop) (Q Q' : A -> World -> Prop)
    (X X' : World -> Prop) :
  hoare P' c Q' X' ->
  (forall w, P w -> P' w) -> (forall a w, Q' a w -> Q a w) ->
  (forall w, X' w -> X w) ->
  hoare P c Q X.
Proof.
  intros Hc HP HQ HX w Hw. specialize (Hc w (HP w Hw)).
  destruct (c w) as [[a|e] w']; auto.
Qed.

Lemma hoare_try_except (body : M A) handler P Q X Y :
  hoare P body Q Y ->
  (forall e, match handler e with
             | Some h => hoare Y h Q X
             | None => forall w, Y w -> X w
             end) ->
  hoare P (try_except body handler) Q X.
Proof.
  intros Hb Hh w Hw. unfold try_except. specialize (Hb w Hw).
  destruct (body w) as [[a|e] w']; [done|].
  specialize (Hh e). destruct (handler e) as [h|]; [by apply Hh|auto].
Qed.

End HoareRules.

Lemma hoare_for_each {A S} (xs : list A) (body : A -> S -> M S)
    (I : S -> World -> Prop) (X : World -> Prop) :
  (forall x s, x ∈ xs -> hoare (I s) (body x s) I X) ->
  forall s, hoare (I s) (for_each xs body s) I X.
Proof.
  induction xs as [|x xs IH]; intros Hbody s; simpl.
  - by apply hoare_ret.
  - eapply hoare_bind.
    + apply Hbody. by left.
    + intros s'. apply IH. intros y t Hy. apply Hbody. by right.
Qed.

(** ** Building the table *)

Lemma pywo_handler_only_refl (w : World) : pywo_handler_only w w.
Proof. split; [done|]. by destruct (HANDLER w). Qed.

Lemma building_emit w0 B (e : Effect) :
  hoare (building w0 B) (emit e) (fun _ => building w0 B) (building w0 B).
Proof. intros w Hw. exact Hw. Qed.

Lemma building_set_mapping w0 B (k : KeyCombo) v :
  k ∈ B ->
  hoare (building w0 B) (set_mapping k v) (fun _ => building w0 B) (building w0 B).
Proof.
  intros Hk w ([Hg Hh] & Hkeys & Hmap). unfold set_mapping. unfold_m. simpl.
  unfold building, pywo_handler_only, pywo_handler_of in *. simpl.
  repeat split; try done.
  - rewrite Hh. done.
  - intros k' Hsome. destruct (decide (k = k')) as [<-|Hne]; [done|].
    rewrite lookup_insert_ne in Hsome by done. auto.
Qed.

Section Build.

Context (E : Env).

Lemma building_bind_section w0 B action mask section loc :
  (forall k, k ∈ section_combos E action mask section -> k ∈ B) ->
  bound_in B loc ->
  hoare (building w0 B) (bind_section E action mask section loc)
        (fun loc' w => building w0 B w /\ bound_in B loc') (building w0 B).
Proof.
  intros Hsec Hloc. unfold bind_section. unfold section_combos in Hsec.
  destruct (truthy (Sec.key section)) as [key|]; [|by apply hoare_ret].
  destruct (bool_decide _); [by apply hoare_ret|].
  eapply hoare_bind with (Q := fun loc' w => building w0 B w /\ bound_in B loc').
  - destruct (str2modifiers_keycode E mask (Some key)) as [mk|].
    + intros w Hw. simpl. split; [done|].
      intros mk' [= <-]. apply Hsec. by left.
    + intros w Hw. simpl. done.
  - intros [mk|].
    + intros w [Hw Hmk].
      pose proof (building_set_mapping w0 B mk (action, Some section)
                    (Hmk mk eq_refl) w Hw) as Hset.
      unfold bind. destruct (set_mapping _ _ w) as [[[]|e] w']; simpl; done.
    + intros w [Hw _]. simpl. done.
Qed.

Lemma building_bind_action w0 B config action loc :
  (forall k, k ∈ action_combos E config action -> k ∈ B) ->
  bound_in B loc ->
  hoare (building w0 B) (bind_action E config action loc)
        (fun loc' w => building w0 B w /\ bound_in B loc') (building w0 B).
Proof.
  intros Hact Hloc. unfold bind_action. unfold action_combos in Hact.
  destruct (truthy (Cfg.keys config !! name action)) as [s|];
    [|destruct (need_section action); by apply hoare_ret].
  destruct (need_section action).
  - eapply hoare_conseq with
      (P' := fun w => building w0 B w /\ bound_in B loc)
      (Q' := fun loc' w => building w0 B w /\ bound_in B loc')
      (X' := building w0 B).
    + apply (hoare_for_each (Cfg.sections config) (bind_section E action s)
               (fun loc' w => building w0 B w /\ bound_in B loc')).
      intros section loc0 Hin w [Hw Hloc0].
      apply building_bind_section; try done.
      intros k Hk. apply Hact. apply list_elem_of_In, in_flat_map.
      exists section. split; by apply list_elem_of_In.
    + by intros w Hw.
    + by intros loc' w Hw.
    + by intros w Hw.
  - destruct (bool_decide _); [by apply hoare_ret|].
    destruct (str2modifiers_keycode E s None) as [mk|]; [|by apply hoare_raise].
    assert (mk ∈ B) as Hmk by (apply Hact; by left).
    intros w Hw.
    pose proof (building_set_mapping w0 B mk (action, None) Hmk w Hw) as Hset.
    unfold bind. destruct (set_mapping _ _ w) as [[[]|e] w']; simpl; [|done].
    split; [done|]. by intros mk' [= <-].
Qed.

(** [PywoModeKeyPressHandler.set_config] changes nothing but
    [pywo_handler] and the trace. When it returns, every combo of the new
    [keys] list is one the configuration resolves to; when it raises, the
    [keys] list is the old one. *)
Lemma PywoModeKeyPressHandler_set_config_spec (config : Cfg.t) (w : World) :
  let r := PywoModeKeyPressHandler_set_config E config w in
  pywo_handler_only w r.2
  /\ match r.1 with
     | Ok _ => forall k, k ∈ PH.keys (pywo_handler_of r.2) ->
                         k ∈ binding_combos E config
     | Raise _ => PH.keys (pywo_handler_of r.2) = PH.keys (pywo_handler_of w)
     end.
Proof.
  set (B := binding_combos E config).
  assert (hoare (fun w' => w' = w)
            (PywoModeKeyPressHandler_set_config E config)
            (fun _ w' => pywo_handler_only w w'
                         /\ forall k, k ∈ PH.keys (pywo_handler_of w') -> k ∈ B)
            (fun w' => pywo_handler_only w w'
                       /\ PH.keys (pywo_handler_of w') = PH.keys (pywo_handler_of w)))
    as Hh.
  { unfold PywoModeKeyPressHandler_set_config.
    eapply hoare_bind with (Q := fun p w' => w' = w /\ p = pywo_handler_of w).
    { intros w' ->. done. }
    intros self.
    eapply hoare_bind with (Q := fun _ => building w B).
    { intros w' [-> ->]. unfold_m. simpl.
      unfold building, pywo_handler_only, pywo_handler_of. simpl.
      repeat split. intros k [x Hx]. by rewrite lookup_empty in Hx. }
    intros _.
    eapply hoare_bind with (Q := fun _ => building w B).
    { eapply hoare_conseq with
        (P' := fun w' => building w B w' /\ bound_in B None)
        (Q' := fun loc' w' => building w B w' /\ bound_in B loc')
        (X' := building w B).
      - apply (hoare_for_each (get_all E) (bind_action E config)
                 (fun loc' w' => building w B w' /\ bound_in B loc')).
        intros action loc Hin w' [Hw' Hloc].
        apply building_bind_action; try done.
        intros k Hk. apply list_elem_of_In, in_flat_map.
        exists action. split; by apply list_elem_of_In.
      - intros w' Hw'. split; [done|]. by intros mk.
      - by intros loc' w' [? _].
      - intros w' (? & ? & _). done. }
    intros _ w' ([Hg Hh] & Hkeys & Hmap). unfold_m. simpl.
    unfold pywo_handler_only, pywo_handler_of in *. simpl.
    repeat split; try done.
    - by rewrite Hh.
    - intros k Hk. apply Hmap.
      apply list_elem_of_fmap in Hk as [[k' v] [-> Hkv]].
      apply elem_of_map_to_list in Hkv. by exists v. }
  specialize (Hh w eq_refl). simpl.
  destruct (PywoModeKeyPressHandler_set_config E config w) as [[[]|e] w'];
    simpl; done.
Qed.

End Build.

(** ** The modal handler's [set_config] *)

Lemma set_config_inner (E : Env) (config : Cfg.t) (w : World) :
  set_config E config w =
    match PywoModeKeyPressHandler_set_config E config w with
    | (Raise e, w1) => (Raise e, w1)
    | (Ok _, w1) =>
        match truthy (Cfg.keys config !! "pywo_mode") with
        | None =>
            (Ok tt, mkWorld (grabbed w1)
                      (MH.with_use_modal_mode false (HANDLER w1)) (trace w1))
        | Some pywo_mode_key =>
            match str2modifiers_keycode E pywo_mode_key None with
            | None => (Raise ValueError, w1)
            | Some mk =>
                let h :=
                  MH.mk (Cfg.modal_mode config) (MH.in_pywo_mode (HANDLER w1))
                    (MH.pywo_handler (HANDLER w1)) (MH.escape_keys (HANDLER w1))
                    (Cfg.visual_bell config) (Cfg.bell_color config)
                    (Cfg.bell_width config) (Cfg.bell_duration config)
                    (Cfg.scroll_lock_led config) [mk]
                    (Cfg.numlock config) (Cfg.capslock config) in
                (Ok tt, mkWorld (grabbed w1)
                          (if Cfg.modal_mode config then h
                           else MH.with_in_pywo_mode true h)
                          (trace w1))
            end
        end
    end.
Proof.
  unfold set_config. unfold bind at 1.
  destruct (PywoModeKeyPressHandler_set_config E config w) as [[[]|e] w1]; [|done].
  destruct (truthy (Cfg.keys config !! "pywo_mode")) as [key|]; [|done].
  destruct (str2modifiers_keycode E key None) as [mk|]; [|done].
  unfold_m. simpl. destruct (Cfg.modal_mode config); done.
Qed.

Lemma pywo_handler_only_fields (w0 w : World) :
  pywo_handler_only w0 w ->
  grabbed w = grabbed w0
  /\ MH.use_modal_mode (HANDLER w) = MH.use_modal_mode (HANDLER w0)
  /\ MH.in_pywo_mode (HANDLER w) = MH.in_pywo_mode (HANDLER w0)
  /\ MH.escape_keys (HANDLER w) = MH.escape_keys (HANDLER w0)
  /\ MH.keys (HANDLER w) = MH.keys (HANDLER w0)
  /\ MH.numlock (HANDLER w) = MH.numlock (HANDLER w0)
  /\ MH.capslock (HANDLER w) = MH.capslock (HANDLER w0)
  /\ MH.visual_bell (HANDLER w) = MH.visual_bell (HANDLER w0)
  /\ MH.bell_color (HANDLER w) = MH.bell_color (HANDLER w0)
  /\ MH.bell_width (HANDLER w) = MH.bell_width (HANDLER w0)
  /\ MH.bell_duration (HANDLER w) = MH.bell_duration (HANDLER w0)
  /\ MH.scroll_lock_led (HANDLER w) = MH.scroll_lock_led (HANDLER w0).
Proof.
  intros [Hg Hh]. split; [done|].
  destruct (HANDLER w), (HANDLER w0). unfold MH.with_pywo_handler in Hh.
  cbn in *. injection Hh as -> -> -> -> -> -> -> -> -> -> ->.
  repeat split.
Qed.

(** C10 (as amended): [set_config] with a configuration whose [keys] has
    no ['pywo_mode'] entry (or an empty one) raises exactly when the inner
    handler's [set_config] raises, and leaves the world that call left,
    except that [use_modal_mode] is cleared when the call returns; when it
    raises, [use_modal_mode] keeps its value. The
    handler's own [keys], [numlock], [capslock], the five feedback
    settings, [in_pywo_mode] and the escape handler keep their values, and
    so do the grabs. Hence a combo that was in [keys] before is still
    acted on by [key_press] afterwards. *)
Theorem set_config_without_mode_key (E : Env) (config : Cfg.t) (w : World) :
  truthy (Cfg.keys config !! "pywo_mode") = None ->
  let inner := PywoModeKeyPressHandler_set_config E config w in
  let w' := exec (set_config E config) w in
  let self := HANDLER w in
  let self' := HANDLER w' in
  result (set_config E config) w = inner.1
  /\ MH.pywo_handler self' = MH.pywo_handler (HANDLER inner.2)
  /\ trace w' = trace inner.2
  /\ grabbed w' = grabbed w
  /\ MH.use_modal_mode self' =
       match inner.1 with
       | Ok _ => false
       | Raise _ => MH.use_modal_mode self
       end
  /\ MH.keys self' = MH.keys self
  /\ MH.numlock self' = MH.numlock self
  /\ MH.capslock self' = MH.capslock self
  /\ MH.visual_bell self' = MH.visual_bell self
  /\ MH.bell_color self' = MH.bell_color self
  /\ MH.bell_width self' = MH.bell_width self
  /\ MH.bell_duration self' = MH.bell_duration self
  /\ MH.scroll_lock_led self' = MH.scroll_lock_led self
  /\ MH.in_pywo_mode self' = MH.in_pywo_mode self
  /\ MH.escape_keys self' = MH.escape_keys self
  /\ forall event, combo event ∈ MH.keys self ->
       key_press event w' =
         if MH.in_pywo_mode self then normal_mode event w'
         else pywo_mode event w'.
Proof.
  intros Hkey. cbv zeta. unfold exec, result.
  rewrite set_config_inner, Hkey.
  destruct (PywoModeKeyPressHandler_set_config_spec E config w) as [Hframe _].
  apply pywo_handler_only_fields in Hframe.
  destruct (PywoModeKeyPressHandler_set_config E config w) as [[[]|e] w1];
    cbn [fst snd grabbed HANDLER trace] in *;
    destruct Hframe as (Hg & Hmod & Hin & Hesc & Hkeys & Hnum & Hcaps
                        & Hbell & Hcol & Hwid & Hdur & Hled).
  - unfold MH.with_use_modal_mode.
    repeat (split; [by cbn|]).
    intros event Hev. rewrite key_press_spec.
    cbn [HANDLER MH.keys MH.in_pywo_mode].
    rewrite Hkeys, Hin. by rewrite bool_decide_eq_true_2.
  - repeat (split; [done|]).
    intros event Hev. rewrite key_press_spec.
    rewrite Hkeys, Hin. by rewrite bool_decide_eq_true_2.
Qed.

Lemma set_config_without_mode_key_witness :
  MH.keys (HANDLER (exec (set_config Demo.env Demo.no_mode_key) Demo.started))
    = MH.keys (HANDLER Demo.started)
  /\ MH.in_pywo_mode (HANDLER (exec (set_config Demo.env Demo.no_mode_key) Demo.started))
    = MH.in_pywo_mode (HANDLER Demo.started).
Proof.
  assert (truthy (Cfg.keys Demo.no_mode_key !! "pywo_mode") = None) as Hpre
    by by_compute.
  pose proof (set_config_without_mode_key Demo.env Demo.no_mode_key
                Demo.started Hpre) as H.
  cbv zeta in H.
  destruct H as (_ & _ & _ & _ & _ & Hkeys & _ & _ & _ & _ & _ & _ & _ & Hin & _).
  exact (conj Hkeys Hin).
Defined.

(** C10 fails for a configuration without mode-entry key whose table
    build raises: [set_config] ends with the exception of the inner
    handler before the assignment to [use_modal_mode], and the flag, set
    under the previous configuration, is not cleared. *)
Lemma modal_flag_survives_failed_build :
  truthy (Cfg.keys Demo.bad_global !! "pywo_mode") = None
  /\ MH.use_modal_mode (HANDLER Demo.started) = true
  /\ result (set_config Demo.env Demo.bad_global) Demo.started = Raise ValueError
  /\ MH.use_modal_mode
       (HANDLER (exec (set_config Demo.env Demo.bad_global) Demo.started))
     = true.
Proof. repeat split; by_compute. Qed.

(** ** What the code does on configurations it mishandles *)

(** C7: after [setup] with a configuration that has no mode-entry key,
    [use_modal_mode] is off and [grab_keys] grabs the inner handler's
    keys, but [in_pywo_mode] is still false: the early [return] skips the
    assignment that the flag-off path makes. [stop] then ungrabs the
    handler's own (empty) key list and every shortcut stays grabbed. With
    the key present and the flag off, [in_pywo_mode] is set and [stop]
    leaves nothing grabbed. *)
Theorem in_pywo_mode_unset_without_mode_key :
  result (setup Demo.env Demo.no_mode_key) Demo.w0 = Ok tt
  /\ MH.use_modal_mode (HANDLER (run Demo.env [CSetup Demo.no_mode_key] Demo.w0)) = false
  /\ MH.in_pywo_mode (HANDLER (run Demo.env [CSetup Demo.no_mode_key] Demo.w0)) = false
  /\ grabbed (run Demo.env [CSetup Demo.no_mode_key; CStart] Demo.w0)
       = {[ (HPywo, (64, 43)); (HPywo, (64, 46)); (HPywo, (64, 58)) ]}
  /\ grabbed (run Demo.env [CSetup Demo.no_mode_key; CStart; CStop] Demo.w0)
       = {[ (HPywo, (64, 43)); (HPywo, (64, 46)); (HPywo, (64, 58)) ]}
  /\ MH.in_pywo_mode (HANDLER (run Demo.env [CSetup Demo.always_on] Demo.w0)) = true
  /\ grabbed (run Demo.env [CSetup Demo.always_on; CStart; CStop] Demo.w0) = ∅.
Proof. repeat split; by_compute. Qed.

(** C4: when a section's key fails to parse after another section's key
    parsed, the failure is logged and the table then maps the earlier
    section's combo to the failing section, so the failing section has an
    entry and the earlier one lost its own. When the failing section comes
    first, [mod] and [keycode] are unbound and the build stops with
    [UnboundLocalError], with no entry for the valid section. *)
Theorem invalid_section_key_not_skipped :
  let w := exec (PywoModeKeyPressHandler_set_config Demo.env Demo.bad_section)
                Demo.w0 in
  let w1 := exec (PywoModeKeyPressHandler_set_config Demo.env Demo.bad_section_first)
                 Demo.w0 in
  result (PywoModeKeyPressHandler_set_config Demo.env Demo.bad_section) Demo.w0
    = Ok tt
  /\ trace w = [ELog LException (MsgInvalidKey Demo.bad)]
  /\ PH.mappings (pywo_handler_of w) = {[ (64, 43) := (Demo.move, Some Demo.bad) ]}
  /\ result (PywoModeKeyPressHandler_set_config Demo.env Demo.bad_section_first)
            Demo.w0 = Raise UnboundLocalError
  /\ PH.mappings (pywo_handler_of w1) = ∅.
Proof. repeat split; by_compute. Qed.

(** C5: when the key of a global action fails to parse, [set_config]
    raises [ValueError] out of the build: the entries of the actions after
    it are missing, and the handler is left with the new [config], an
    emptied [mappings], and the [keys] list and lock flags of the previous
    configuration. *)
Theorem invalid_global_key_aborts :
  let w := exec (PywoModeKeyPressHandler_set_config Demo.env Demo.bad_global)
                Demo.started in
  result (PywoModeKeyPressHandler_set_config Demo.env Demo.bad_global)
         Demo.started = Raise ValueError
  /\ result (setup Demo.env Demo.bad_global) Demo.started = Raise ValueError
  /\ binding_combos Demo.env Demo.bad_global = [(64, 43); (64, 46)]
  /\ PH.config (pywo_handler_of w) = Some Demo.bad_global
  /\ PH.mappings (pywo_handler_of w) = ∅
  /\ PH.keys (pywo_handler_of w) = PH.keys (pywo_handler_of Demo.started)
  /\ PH.keys (pywo_handler_of w) = [(64, 43); (64, 46); (64, 58)].
Proof. repeat split; by_compute. Qed.

(** ** Grabs along a run *)

Lemma elem_of_owned (h h' : HandlerId) (k : KeyCombo) (keys : list KeyCombo) :
  (h', k) ∈ owned h keys <-> h' = h /\ k ∈ keys.
Proof.
  unfold owned. rewrite elem_of_list_to_set, list_elem_of_fmap. split.
  - intros (k' & [= -> ->] & Hin). done.
  - intros [-> Hin]. by exists k.
Qed.

Lemma grab_keys_spec (w : World) :
  grab_keys w =
    (Ok tt,
     mkWorld ((if MH.use_modal_mode (HANDLER w)
               then owned HModal (MH.keys (HANDLER w))
               else owned HPywo (PH.keys (pywo_handler_of w))) ∪ grabbed w)
             (HANDLER w)
             (trace w ++
                if MH.use_modal_mode (HANDLER w)
                then EGrabKey HModal <$> MH.keys (HANDLER w)
                else EGrabKey HPywo <$> PH.keys (pywo_handler_of w))).
Proof.
  unfold grab_keys, bind, get_handler, pywo_handler_of.
  destruct (MH.use_modal_mode (HANDLER w));
    by rewrite KeyHandler_grab_keys_spec.
Qed.

Lemma start_spec (w : World) :
  result start w = Ok tt
  /\ HANDLER (exec start w) = HANDLER w
  /\ grabbed (exec start w) =
       (if MH.use_modal_mode (HANDLER w)
        then owned HModal (MH.keys (HANDLER w))
        else owned HPywo (PH.keys (pywo_handler_of w))) ∪ grabbed w.
Proof.
  unfold start, exec, result, bind, log, emit. rewrite grab_keys_spec. done.
Qed.

Lemma stop_spec (w : World) :
  stop w =
    (Ok tt,
     mkWorld (grabbed w ∖ released (HANDLER w)) (HANDLER w)
             (trace w ++ [EScrollLockLed false; EFlush]
                ++ ungrab_trace (HANDLER w)
                ++ [ELog LInfo (MsgText "Keyboard shortcuts unregistered")])).
Proof.
  unfold stop, bind, log, emit. rewrite ungrab_keys_spec. cbn.
  by rewrite <- !app_assoc.
Qed.

Lemma deliver_spec (E : Env) (h : HandlerId) (event : Event) (w : World) :
  deliver E h event w = (Ok tt, w)
  \/ ((h, combo event) ∈ grabbed w
      /\ deliver E h event w = handler_key_press E h event w).
Proof.
  unfold deliver. case_bool_decide; [|by left].
  by right.
Qed.

(** A world [w'] whose handlers have the key lists of [w] and whose grabs
    are grabs of [w] or grabs of a handler's own keys. *)
Lemma in_roles_step esc modes binds (w w' : World) :
  MH.keys (HANDLER w') = MH.keys (HANDLER w) ->
  PH.keys (pywo_handler_of w') = PH.keys (pywo_handler_of w) ->
  MH.escape_keys (HANDLER w') = MH.escape_keys (HANDLER w) ->
  (forall h k, (h, k) ∈ grabbed w' ->
     (h, k) ∈ grabbed w
     \/ (h, k) ∈ owned HModal (MH.keys (HANDLER w))
     \/ (h, k) ∈ owned HPywo (PH.keys (pywo_handler_of w))
     \/ (h, k) ∈ owned HEscape (MH.escape_keys (HANDLER w))) ->
  in_roles esc modes binds w -> in_roles esc modes binds w'.
Proof.
  intros Hk Hp He Hg (Hmodes & Hbinds & Hesc & Hgrab).
  unfold in_roles. rewrite Hk, Hp, He. repeat split; try done.
  intros h k Hin. destruct (Hg h k Hin) as [H|[H|[H|H]]].
  - by apply Hgrab.
  - apply elem_of_owned in H as [-> H]. by apply Hmodes.
  - apply elem_of_owned in H as [-> H]. by apply Hbinds.
  - apply elem_of_owned in H as [-> H]. rewrite Hesc in H.
    by apply list_elem_of_singleton in H.
Qed.

Lemma in_roles_pywo_mode esc modes binds event (w : World) :
  in_roles esc modes binds w -> in_roles esc modes binds (exec (pywo_mode event) w).
Proof.
  apply in_roles_step; unfold exec; rewrite pywo_mode_spec; try done.
  cbn. intros h k. rewrite !elem_of_union. tauto.
Qed.

Lemma in_roles_normal_mode esc modes binds event (w : World) :
  in_roles esc modes binds w -> in_roles esc modes binds (exec (normal_mode event) w).
Proof.
  apply in_roles_step; unfold exec; rewrite normal_mode_spec; try done.
  cbn. intros h k. rewrite elem_of_difference. tauto.
Qed.

Lemma in_roles_call (E : Env) esc modes binds (c : Call) (w : World) :
  is_setup c = false ->
  in_roles esc modes binds w -> in_roles esc modes binds (exec (do_call E c) w).
Proof.
  destruct c as [config| | |h event]; [done| | |]; intros _; cbn [do_call].
  - destruct (start_spec w) as (_ & Hh & Hg).
    apply in_roles_step; rewrite ?Hh; unfold pywo_handler_of; rewrite ?Hh; try done.
    intros h k. rewrite Hg, elem_of_union.
    destruct (MH.use_modal_mode (HANDLER w)); tauto.
  - apply in_roles_step; unfold exec; rewrite stop_spec; try done.
    cbn. intros h k. rewrite elem_of_difference. tauto.
  - unfold exec. destruct (deliver_spec E h event w) as [->|[_ ->]]; [done|].
    destruct h; cbn [handler_key_press].
    + rewrite key_press_spec. destruct (bool_decide _); [|done].
      destruct (MH.in_pywo_mode (HANDLER w)).
      * apply in_roles_normal_mode.
      * apply in_roles_pywo_mode.
    + destruct (dispatcher_key_press_frame E event w) as [Hg Hh].
      unfold exec in Hg, Hh.
      apply in_roles_step; unfold pywo_handler_of; rewrite ?Hh, ?Hg; try done.
      tauto.
    + apply in_roles_normal_mode.
Qed.

Lemma in_roles_setup (E : Env) esc modes binds (config : Cfg.t) (w : World) :
  config_in_roles E modes binds config = true ->
  in_roles esc modes binds w -> in_roles esc modes binds (exec (setup E config) w).
Proof.
  unfold config_in_roles. rewrite andb_true_iff, !forallb_forall.
  intros [Hmode Hbind] (Hmodes & Hbinds & Hesc & Hgrab).
  assert (forall k, k ∈ binding_combos E config -> k ∈ binds) as Hbind'.
  { intros k Hk. apply list_elem_of_In, Hbind in Hk.
    by apply bool_decide_eq_true_1 in Hk. }
  unfold setup, exec. rewrite set_config_inner.
  destruct (PywoModeKeyPressHandler_set_config_spec E config w) as [Hframe Hkeys].
  apply pywo_handler_only_fields in Hframe.
  destruct Hframe as (Hg & _ & _ & Hesc' & Hk' & _).
  unfold mode_combos in Hmode.
  destruct (PywoModeKeyPressHandler_set_config E config w) as [[[]|e] w1];
    cbn [fst snd] in *.
  - assert (forall k, k ∈ PH.keys (pywo_handler_of w1) -> k ∈ binds) as Hb
      by (intros k Hk; by apply Hbind', Hkeys).
    destruct (truthy (Cfg.keys config !! "pywo_mode")) as [key|].
    + destruct (str2modifiers_keycode E key None) as [mk|].
      * assert (mk ∈ modes) as Hmk.
        { specialize (Hmode mk (or_introl eq_refl)).
          by apply bool_decide_eq_true_1 in Hmode. }
        unfold in_roles, pywo_handler_of.
        destruct (Cfg.modal_mode config); cbn; rewrite ?Hg;
          (split; [intros k Hk; by apply list_elem_of_singleton in Hk as ->|]);
          repeat split; try done; by rewrite Hesc'.
      * unfold in_roles. cbn. rewrite Hk', Hesc', Hg. done.
    + unfold in_roles, pywo_handler_of. cbn. rewrite Hk', Hesc', Hg. done.
  - unfold in_roles. rewrite Hk', Hkeys, Hesc', Hg. done.
Qed.

Lemma in_roles_run (E : Env) esc modes binds (calls : list Call) (w : World) :
  forallb (call_in_roles E modes binds) calls = true ->
  in_roles esc modes binds w -> in_roles esc modes binds (run E calls w).
Proof.
  revert w. induction calls as [|c calls IH]; intros w; cbn [forallb run]; [done|].
  rewrite andb_true_iff. intros [Hc Hcs] Hw. apply IH; [done|].
  destruct (is_setup c) eqn:Hs.
  - destruct c; try done. by apply in_roles_setup.
  - by apply in_roles_call.
Qed.

(** C2 (as amended): when no combo serves two roles, that is, when every
    configuration applied resolves its mode-entry key to a combo of
    [modes] and its bindings to combos of [binds], and [modes], [binds]
    and the escape combo are pairwise disjoint, then in every world
    reached from the initial one by any sequence of [setup], [start],
    [stop] and delivered key presses, no combo is grabbed for two
    different handlers. *)
Theorem single_owner_when_roles_disjoint (E : Env) (esc : KeyCombo)
    (modes binds : list KeyCombo) (calls : list Call) :
  roles_disjoint esc modes binds = true ->
  forallb (call_in_roles E modes binds) calls = true ->
  single_owner (run E calls (initial_world esc)).
Proof.
  unfold roles_disjoint. rewrite !andb_true_iff, forallb_forall.
  intros [[He1 He2] Hdisj] Hcalls.
  apply bool_decide_eq_true_1 in He1, He2.
  assert (in_roles esc modes binds (initial_world esc)) as Hinit.
  { unfold in_roles, initial_world, pywo_handler_of. cbn.
    repeat split; try done; intros; by apply elem_of_nil in H. }
  destruct (in_roles_run E esc modes binds calls _ Hcalls Hinit)
    as (_ & _ & _ & Hgrab).
  intros k h1 h2 H1 H2. apply Hgrab in H1, H2.
  assert (k ∈ modes -> k ∈ binds -> False) as Hmb.
  { intros Hm Hb. apply list_elem_of_In, Hdisj in Hm.
    by apply bool_decide_eq_true_1 in Hm. }
  destruct h1, h2; cbn in H1, H2; subst; try done; exfalso; eauto.
Qed.

Lemma single_owner_when_roles_disjoint_witness :
  single_owner
    (run Demo.env
       [CSetup Demo.modal; CStart; CKeyPress HModal Demo.alt_p;
        CKeyPress HPywo Demo.super_m; CSetup Demo.always_on;
        CKeyPress HEscape Demo.escape; CStop]
       (initial_world Demo.esc)).
Proof.
  apply (single_owner_when_roles_disjoint Demo.env Demo.esc
           [(8, 33)] [(64, 43); (64, 46); (64, 58)]); by_compute.
Defined.

(** C2 fails for a configuration that gives the mode-entry key to an
    action as well: after [setup], [start] and one press of that key, its
    combo is grabbed both for [HANDLER] and for its [pywo_handler]. *)
Lemma shared_key_grabbed_twice :
  (HModal, (8, 33)) ∈ grabbed (run Demo.env
     [CSetup Demo.shared_key; CStart; CKeyPress HModal Demo.alt_p] Demo.w0)
  /\ (HPywo, (8, 33)) ∈ grabbed (run Demo.env
     [CSetup Demo.shared_key; CStart; CKeyPress HModal Demo.alt_p] Demo.w0)
  /\ ~ single_owner (run Demo.env
     [CSetup Demo.shared_key; CStart; CKeyPress HModal Demo.alt_p] Demo.w0).
Proof.
  assert ((HModal, (8, 33)) ∈ grabbed (run Demo.env
     [CSetup Demo.shared_key; CStart; CKeyPress HModal Demo.alt_p] Demo.w0))
    as H1 by by_compute.
  assert ((HPywo, (8, 33)) ∈ grabbed (run Demo.env
     [CSetup Demo.shared_key; CStart; CKeyPress HModal Demo.alt_p] Demo.w0))
    as H2 by by_compute.
  repeat split; try done.
  intros Hone. by specialize (Hone _ _ _ H1 H2).
Qed.

(** ** Shutdown *)

Lemma same_settings_fields (h h1 : MH.t) :
  same_settings h h1 ->
  MH.use_modal_mode h = MH.use_modal_mode h1
  /\ MH.keys h = MH.keys h1
  /\ MH.pywo_handler h = MH.pywo_handler h1
  /\ MH.escape_keys h = MH.escape_keys h1.
Proof.
  unfold same_settings, MH.with_in_pywo_mode. destruct h, h1. cbn.
  intros [= -> -> -> -> -> -> -> -> -> -> ->]. done.
Qed.

Lemma same_settings_in_pywo_mode (b : bool) (h h1 : MH.t) :
  same_settings h h1 -> same_settings (MH.with_in_pywo_mode b h) h1.
Proof. unfold same_settings. by destruct h, h1. Qed.

Lemma configured_as_normal_mode (h1 : MH.t) event (w : World) :
  MH.use_modal_mode h1 = true ->
  configured_as h1 w -> configured_as h1 (exec (normal_mode event) w).
Proof.
  intros Hmodal (Hsame & Hnm & Hg).
  destruct (same_settings_fields _ _ Hsame) as (Hm & Hk & Hp & He).
  unfold exec. rewrite normal_mode_spec. unfold configured_as, released.
  cbn [snd HANDLER grabbed]. rewrite Hm, Hk, Hp, He, Hmodal in *.
  split; [by apply same_settings_in_pywo_mode|]. split; [done|].
  cbn. destruct (MH.in_pywo_mode (HANDLER w)); cbn; set_solver.
Qed.

Lemma configured_as_pywo_mode (h1 : MH.t) event (w : World) :
  MH.use_modal_mode h1 = true ->
  configured_as h1 w -> configured_as h1 (exec (pywo_mode event) w).
Proof.
  intros Hmodal (Hsame & Hnm & Hg).
  destruct (same_settings_fields _ _ Hsame) as (Hm & Hk & Hp & He).
  unfold exec. rewrite pywo_mode_spec. unfold configured_as.
  cbn [snd HANDLER grabbed]. rewrite Hp, He, Hmodal in *.
  split; [by apply same_settings_in_pywo_mode|]. split; [done|].
  cbn. destruct (MH.in_pywo_mode (HANDLER w)); set_solver.
Qed.

Lemma configured_as_call (E : Env) (h1 : MH.t) (c : Call) (w : World) :
  is_setup c = false ->
  configured_as h1 w -> configured_as h1 (exec (do_call E c) w).
Proof.
  destruct c as [config| | |h event]; [done| | |]; intros _ Hw; cbn [do_call].
  - destruct Hw as (Hsame & Hnm & Hg).
    destruct (same_settings_fields _ _ Hsame) as (Hm & Hk & Hp & He).
    destruct (start_spec w) as (_ & Hh & Hg').
    unfold configured_as. rewrite Hh, Hg'. unfold pywo_handler_of.
    rewrite Hm, Hk, Hp. repeat split; try done.
    destruct (MH.use_modal_mode h1); [set_solver|].
    rewrite (Hnm eq_refl) in *. set_solver.
  - destruct Hw as (Hsame & Hnm & Hg).
    unfold exec. rewrite stop_spec. unfold configured_as.
    cbn [snd HANDLER grabbed]. repeat split; try done. set_solver.
  - unfold exec. destruct (deliver_spec E h event w) as [->|[Hheld ->]]; [done|].
    destruct h; cbn [handler_key_press].
    + destruct (MH.use_modal_mode h1) eqn:Hmodal.
      * rewrite key_press_spec. destruct (bool_decide _); [|done].
        destruct (MH.in_pywo_mode (HANDLER w)).
        -- by apply configured_as_normal_mode.
        -- by apply configured_as_pywo_mode.
      * destruct Hw as (_ & Hnm & Hg). exfalso.
        apply Hg in Hheld. rewrite (Hnm Hmodal), Hmodal in Hheld.
        rewrite !elem_of_union, elem_of_owned in Hheld.
        destruct Hheld as [H|[[? _]|H]]; try done; set_solver.
    + destruct (dispatcher_key_press_frame E event w) as [Hg' Hh].
      unfold exec in Hg', Hh. destruct Hw as (Hsame & Hnm & Hg).
      unfold configured_as. by rewrite Hh, Hg'.
    + destruct (MH.use_modal_mode h1) eqn:Hmodal.
      * by apply configured_as_normal_mode.
      * destruct Hw as (_ & Hnm & Hg). exfalso.
        apply Hg in Hheld. rewrite (Hnm Hmodal), Hmodal in Hheld.
        rewrite !elem_of_union, elem_of_owned in Hheld.
        destruct Hheld as [H|[[? _]|H]]; try done; set_solver.
Qed.

Lemma configured_as_run (E : Env) (h1 : MH.t) (calls : list Call) (w : World) :
  forallb (fun c => negb (is_setup c)) calls = true ->
  configured_as h1 w -> configured_as h1 (run E calls w).
Proof.
  revert w. induction calls as [|c calls IH]; intros w; cbn [forallb run]; [done|].
  rewrite andb_true_iff, negb_true_iff. intros [Hc Hcs] Hw.
  apply IH; [done|]. by apply configured_as_call.
Qed.

Lemma configured_as_setup (E : Env) (esc : KeyCombo) (config : Cfg.t) :
  truthy (Cfg.keys config !! "pywo_mode") <> None ->
  result (setup E config) (initial_world esc) = Ok tt ->
  configured_as (HANDLER (exec (setup E config) (initial_world esc)))
                (exec (setup E config) (initial_world esc)).
Proof.
  intros Hkey. unfold setup, result, exec. rewrite set_config_inner.
  destruct (PywoModeKeyPressHandler_set_config_spec E config (initial_world esc))
    as [Hframe _].
  apply pywo_handler_only_fields in Hframe.
  destruct Hframe as (Hg & _ & Hin & _).
  destruct (PywoModeKeyPressHandler_set_config E config (initial_world esc))
    as [[[]|e] w1]; cbn [fst snd] in *; [|done].
  destruct (truthy (Cfg.keys config !! "pywo_mode")) as [key|]; [|done].
  destruct (str2modifiers_keycode E key None) as [mk|]; [|done].
  intros _. unfold configured_as. cbn [snd HANDLER grabbed].
  rewrite Hg. cbn [grabbed initial_world].
  destruct (Cfg.modal_mode config); cbn; repeat split; try done; set_solver.
Qed.




(** * Further properties of the service *)

(** ** The table a build leaves *)

Lemma table_inv_mono (E : Env) config w0 (D D' : list KeyCombo) (w : World) :
  (forall k, k ∈ D' -> k ∈ D) ->
  table_inv E config w0 D w -> table_inv E config w0 D' w.
Proof.
  intros Hsub (Hf & Hc & Hk & Hn & Hcl & Hs & Hd & Ht).
  repeat (split; [done|]). split; [|done]. intros k Hin. auto.
Qed.

Lemma section_combo_in_binding (E : Env) config action mask section key mk :
  action ∈ get_all E -> need_section action = true ->
  truthy (Cfg.keys config !! name action) = Some mask ->
  section ∈ Cfg.sections config ->
  truthy (Sec.key section) = Some key ->
  name action ∉ Sec.ignored_actions section ->
  str2modifiers_keycode E mask (Some key) = Some mk ->
  mk ∈ binding_combos E config.
Proof.
  intros Ha Hns Hmask Hs Hkey Hign Hparse.
  apply list_elem_of_In, in_flat_map. exists action.
  split; [by apply list_elem_of_In|].
  unfold action_combos. rewrite Hmask, Hns.
  apply in_flat_map. exists section. split; [by apply list_elem_of_In|].
  unfold section_combos. rewrite Hkey, bool_decide_eq_false_2, Hparse by done.
  by left.
Qed.

Lemma global_combo_in_binding (E : Env) config action key mk :
  action ∈ get_all E -> need_section action = false ->
  truthy (Cfg.keys config !! name action) = Some key ->
  action ∉ Cfg.ignored_actions config ->
  str2modifiers_keycode E key None = Some mk ->
  mk ∈ binding_combos E config.
Proof.
  intros Ha Hns Hkey Hign Hparse.
  apply list_elem_of_In, in_flat_map. exists action.
  split; [by apply list_elem_of_In|].
  unfold action_combos. rewrite Hkey, Hns, bool_decide_eq_false_2, Hparse by done.
  by left.
Qed.

Lemma section_parse_failure (E : Env) config action mask section key :
  action ∈ get_all E -> need_section action = true ->
  truthy (Cfg.keys config !! name action) = Some mask ->
  section ∈ Cfg.sections config ->
  truthy (Sec.key section) = Some key ->
  name action ∉ Sec.ignored_actions section ->
  str2modifiers_keycode E mask (Some key) = None ->
  config_parses E config = false.
Proof.
  intros Ha Hns Hmask Hs Hkey Hign Hparse.
  destruct (config_parses E config) eqn:Hall; [exfalso|done].
  unfold config_parses in Hall. rewrite forallb_forall in Hall.
  apply list_elem_of_In, Hall in Ha. unfold action_parses in Ha.
  rewrite Hmask, Hns, forallb_forall in Ha.
  apply list_elem_of_In, Ha in Hs. unfold section_parses in Hs.
  by rewrite Hkey, bool_decide_eq_false_2, Hparse in Hs.
Qed.

Lemma global_parse_failure (E : Env) config action key :
  action ∈ get_all E -> need_section action = false ->
  truthy (Cfg.keys config !! name action) = Some key ->
  action ∉ Cfg.ignored_actions config ->
  str2modifiers_keycode E key None = None ->
  config_parses E config = false.
Proof.
  intros Ha Hns Hkey Hign Hparse.
  destruct (config_parses E config) eqn:Hall; [exfalso|done].
  unfold config_parses in Hall. rewrite forallb_forall in Hall.
  apply list_elem_of_In, Hall in Ha. unfold action_parses in Ha.
  by rewrite Hkey, Hns, bool_decide_eq_false_2, Hparse in Ha.
Qed.

Lemma table_inv_set_mapping (E : Env) config w0 D (k : KeyCombo)
    action section (w : World) :
  entry_justified E config k action section ->
  table_inv E config w0 D w ->
  set_mapping k (action, section) w
    = (Ok tt, exec (set_mapping k (action, section)) w)
  /\ table_inv E config w0 (k :: D) (exec (set_mapping k (action, section)) w).
Proof.
  intros Hv ([Hg Hh] & Hc & Hk & Hn & Hcl & Hs & Hd & Ht).
  split; [done|]. unfold exec, set_mapping. unfold_m. cbn [snd].
  unfold table_inv, pywo_handler_only, pywo_handler_of in *. cbn.
  split; [split; [done|by rewrite Hh]|].
  repeat (split; [done|]). split; [|split; [|done]].
  - intros k' a' s'. destruct (decide (k = k')) as [<-|Hne].
    + rewrite lookup_insert_eq. by intros [= <- <-].
    + rewrite lookup_insert_ne by done. apply Hs.
  - intros k' Hin. destruct (decide (k = k')) as [<-|Hne].
    + rewrite lookup_insert_eq. by eexists.
    + rewrite lookup_insert_ne by done. apply Hd.
      apply elem_of_cons in Hin as [->|Hin]; done.
Qed.

Lemma table_inv_log (E : Env) config w0 D section (w : World) :
  section ∈ Cfg.sections config ->
  config_parses E config = false ->
  table_inv E config w0 D w ->
  table_inv E config w0 D (exec (log LException (MsgInvalidKey section)) w).
Proof.
  intros Hsec Hfail (Hf & Hc & Hk & Hn & Hcl & Hs & Hd & l & Ht & Hl & Hnil).
  unfold exec, log, emit. cbn [snd].
  unfold table_inv, pywo_handler_only, pywo_handler_of in *. cbn.
  repeat (split; [done|]).
  exists (l ++ [ELog LException (MsgInvalidKey section)]).
  rewrite Ht, app_assoc. split; [done|]. split.
  - apply Forall_app. split; [done|]. apply Forall_singleton. by exists section.
  - intros Hall. by rewrite Hall in Hfail.
Qed.

Lemma hoare_for_each_prefix {A S} (xs : list A) (body : A -> S -> M S)
    (I : list A -> S -> World -> Prop) (X : World -> Prop) :
  (forall pre x s, x ∈ xs -> hoare (I pre s) (body x s) (I (pre ++ [x])) X) ->
  forall pre s, hoare (I pre s) (for_each xs body s) (I (pre ++ xs)) X.
Proof.
  induction xs as [|x xs IH]; intros Hbody pre s; simpl.
  - rewrite app_nil_r. by apply hoare_ret.
  - eapply hoare_bind.
    + apply Hbody. by left.
    + intros s'. replace (pre ++ x :: xs) with ((pre ++ [x]) ++ xs)
        by (by rewrite <- app_assoc).
      apply IH. intros pre' y t Hy. apply Hbody. by right.
Qed.

Section TableBuild.

Context (E : Env) (config : Cfg.t) (w0 : World).

Lemma table_inv_bind_section D action mask section loc :
  action ∈ get_all E -> need_section action = true ->
  truthy (Cfg.keys config !! name action) = Some mask ->
  section ∈ Cfg.sections config ->
  bound_in (binding_combos E config) loc ->
  hoare (table_inv E config w0 D) (bind_section E action mask section loc)
    (fun loc' w =>
       table_inv E config w0 (D ++ section_combos E action mask section) w
       /\ bound_in (binding_combos E config) loc')
    (fun w => table_inv E config w0 [] w /\ config_parses E config = false).
Proof.
  intros Ha Hns Hmask Hs Hloc w Hw. unfold bind_section, section_combos.
  destruct (truthy (Sec.key section)) as [key|] eqn:Hkey.
  2: { cbn. rewrite app_nil_r. done. }
  case_bool_decide as Hign.
  { cbn. rewrite app_nil_r. done. }
  destruct (str2modifiers_keycode E mask (Some key)) as [mk|] eqn:Hparse.
  - assert (mk ∈ binding_combos E config) as Hmk
      by eauto using section_combo_in_binding.
    assert (entry_justified E config mk action (Some section)) as Hent.
    { split; [done|]. split; [done|]. exists mask. split; [done|].
      repeat split; try done. exists key. split; [done|]. by left. }
    destruct (table_inv_set_mapping E config w0 D mk action (Some section) w
                Hent Hw) as [Heq Hinv].
    unfold bind at 1. unfold try_except, ret at 1. unfold bind at 1.
    rewrite Heq. cbn [ret]. split.
    + eapply table_inv_mono; [|exact Hinv]. set_solver.
    + by intros mk' [= <-].
  - assert (config_parses E config = false) as Hfail
      by eauto using section_parse_failure.
    pose proof (table_inv_log E config w0 D section w Hs Hfail Hw) as Hlog.
    unfold bind at 1. unfold try_except, raise at 1.
    unfold bind at 1. unfold log at 1, emit at 1. unfold ret at 1.
    unfold exec, log, emit in Hlog. cbn [snd] in Hlog.
    destruct loc as [mk|].
    + assert (entry_justified E config mk action (Some section)) as Hent.
      { split; [done|]. split; [by apply Hloc|]. exists mask. split; [done|].
        repeat split; try done. exists key. split; [done|]. by right. }
      destruct (table_inv_set_mapping E config w0 D mk action (Some section) _
                  Hent Hlog) as [Heq Hinv].
      unfold bind at 1. rewrite Heq. cbn [ret]. split; [|done].
      eapply table_inv_mono; [|exact Hinv]. set_solver.
    + cbn. split; [|done]. eapply table_inv_mono; [|exact Hlog]. set_solver.
Qed.

Lemma table_inv_bind_action D action loc :
  action ∈ get_all E ->
  bound_in (binding_combos E config) loc ->
  hoare (table_inv E config w0 D) (bind_action E config action loc)
    (fun loc' w =>
       table_inv E config w0 (D ++ action_combos E config action) w
       /\ bound_in (binding_combos E config) loc')
    (fun w => table_inv E config w0 [] w /\ config_parses E config = false).
Proof.
  intros Ha Hloc. unfold bind_action, action_combos.
  destruct (truthy (Cfg.keys config !! name action)) as [key|] eqn:Hkey.
  2: { intros w Hw. destruct (need_section action); cbn; by rewrite app_nil_r. }
  destruct (need_section action) eqn:Hns.
  - intros w Hw.
    apply (hoare_for_each_prefix (Cfg.sections config)
             (bind_section E action key)
             (fun pre loc' w' =>
                table_inv E config w0
                  (D ++ flat_map (section_combos E action key) pre) w'
                /\ bound_in (binding_combos E config) loc')
             (fun w' => table_inv E config w0 [] w'
                        /\ config_parses E config = false)
             ltac:(intros pre x s Hx w' [Hw' Hs];
                   rewrite flat_map_app; cbn [flat_map];
                   rewrite app_nil_r, app_assoc;
                   by apply table_inv_bind_section)
             [] loc w).
    cbn [flat_map]. by rewrite app_nil_r.
  - case_bool_decide as Hign.
    { intros w Hw. cbn. by rewrite app_nil_r. }
    destruct (str2modifiers_keycode E key None) as [mk|] eqn:Hparse.
    + intros w Hw.
      assert (mk ∈ binding_combos E config) as Hmk
        by eauto using global_combo_in_binding.
      assert (entry_justified E config mk action None) as Hent.
      { split; [done|]. split; [done|]. by exists key. }
      destruct (table_inv_set_mapping E config w0 D mk action None w Hent Hw)
        as [Heq Hinv].
      unfold bind. rewrite Heq. cbn [ret]. split.
      * eapply table_inv_mono; [|exact Hinv]. set_solver.
      * by intros mk' [= <-].
    + intros w Hw. cbn. split.
      * eapply table_inv_mono; [|exact Hw]. set_solver.
      * eauto using global_parse_failure.
Qed.

(** The build of [PywoModeKeyPressHandler.set_config], whole: when it
    raises, the world is one of a build under way and some key of the
    configuration does not parse; when it returns, the last three
    assignments were made on a table that has an entry for every combo the
    configuration resolves to. *)
Lemma table_inv_build :
  match PywoModeKeyPressHandler_set_config E config w0 with
  | (Raise _, w) =>
      table_inv E config w0 [] w /\ config_parses E config = false
  | (Ok _, w) =>
      exists w2, table_inv E config w0 (binding_combos E config) w2
        /\ w = mkWorld (grabbed w2)
                 (MH.with_pywo_handler
                    (PH.mk (PH.config (pywo_handler_of w2))
                           (PH.mappings (pywo_handler_of w2))
                           ((map_to_list (PH.mappings (pywo_handler_of w2))).*1)
                           (Cfg.numlock config) (Cfg.capslock config))
                    (HANDLER w2))
                 (trace w2)
  end.
Proof.
  unfold PywoModeKeyPressHandler_set_config.
  unfold bind at 1. unfold get_pywo_handler at 1.
  unfold bind at 1. unfold set_pywo_handler at 1.
  set (w1 := mkWorld _ _ _).
  assert (table_inv E config w0 [] w1) as H1.
  { unfold table_inv, pywo_handler_only, pywo_handler_of, w1. cbn.
    do 5 (split; [done|]). split; [|split].
    - intros k a s Hk. by rewrite lookup_empty in Hk.
    - intros k Hk. by apply elem_of_nil in Hk.
    - exists []. by rewrite app_nil_r. }
  pose proof (hoare_for_each_prefix (get_all E) (bind_action E config)
    (fun pre loc' w' =>
       table_inv E config w0 (flat_map (action_combos E config) pre) w'
       /\ bound_in (binding_combos E config) loc')
    (fun w' => table_inv E config w0 [] w' /\ config_parses E config = false)
    ltac:(intros pre x s Hx w' [Hw' Hs];
          rewrite flat_map_app; cbn [flat_map]; rewrite app_nil_r;
          by apply table_inv_bind_action)
    [] None w1) as Hloop.
  cbn [app flat_map] in Hloop.
  assert (bound_in (binding_combos E config) None) as Hnone by (by intros mk).
  specialize (Hloop (conj H1 Hnone)). unfold bind at 1.
  destruct (for_each (get_all E) (bind_action E config) None w1)
    as [[loc'|e] w2]; [|done].
  destruct Hloop as [H2 _]. exists w2. split; done.
Qed.

End TableBuild.

(** ** A build depends on the configuration only *)

Section Agree.

Context (t1 t2 : list Effect).

Lemma agree_ret {A} (a : A) : agree t1 t2 (ret a).
Proof. intros w1 w2 H. done. Qed.

Lemma agree_raise {A} (e : Exn) : agree t1 t2 (raise (A := A) e).
Proof. intros w1 w2 H. done. Qed.

Lemma agree_bind {A B} (c : M A) (k : A -> M B) :
  agree t1 t2 c -> (forall a, agree t1 t2 (k a)) -> agree t1 t2 (bind c k).
Proof.
  intros Hc Hk w1 w2 H. unfold bind. destruct (Hc w1 w2 H) as [Hr Hw].
  destruct (c w1) as [[a|e] w1'], (c w2) as [[a'|e'] w2']; cbn in *;
    simplify_eq; [by apply Hk|done].
Qed.

Lemma agree_try_except {A} (body : M A) handler :
  agree t1 t2 body ->
  (forall e, match handler e with Some h => agree t1 t2 h | None => True end) ->
  agree t1 t2 (try_except body handler).
Proof.
  intros Hb Hh w1 w2 H. unfold try_except. destruct (Hb w1 w2 H) as [Hr Hw].
  destruct (body w1) as [[a|e] w1'], (body w2) as [[a'|e'] w2']; cbn in *;
    simplify_eq; [done|].
  specialize (Hh e'). destruct (handler e') as [h|]; [by apply Hh|done].
Qed.

Lemma agree_for_each {A S} (xs : list A) (body : A -> S -> M S) :
  (forall x s, agree t1 t2 (body x s)) ->
  forall s, agree t1 t2 (for_each xs body s).
Proof.
  intros Hbody. induction xs as [|x xs IH]; intros s; simpl.
  - apply agree_ret.
  - apply agree_bind; [apply Hbody|apply IH].
Qed.

Lemma agree_emit (e : Effect) : agree t1 t2 (emit e).
Proof.
  intros w1 w2 (Hc & Hm & l & Hl1 & Hl2). split; [done|].
  unfold emit, same_table, pywo_handler_of. cbn.
  repeat (split; [done|]). exists (l ++ [e]).
  by rewrite Hl1, Hl2, !app_assoc.
Qed.

Lemma agree_set_mapping (k : KeyCombo) v : agree t1 t2 (set_mapping k v).
Proof.
  intros w1 w2 (Hc & Hm & Hl). split; [done|].
  unfold set_mapping, same_table, pywo_handler_of in *. unfold_m. cbn.
  by rewrite Hm.
Qed.

Lemma agree_bind_section (E : Env) action mask section loc :
  agree t1 t2 (bind_section E action mask section loc).
Proof.
  unfold bind_section.
  destruct (truthy (Sec.key section)) as [key|]; [|apply agree_ret].
  case_bool_decide; [apply agree_ret|].
  apply agree_bind.
  - apply agree_try_except.
    + destruct (str2modifiers_keycode E mask (Some key));
        [apply agree_ret|apply agree_raise].
    + intros []; try done.
      apply agree_bind; [apply agree_emit|intros _; apply agree_ret].
  - intros [mk|]; [|apply agree_raise].
    apply agree_bind; [apply agree_set_mapping|intros _; apply agree_ret].
Qed.

Lemma agree_bind_action (E : Env) config action loc :
  agree t1 t2 (bind_action E config action loc).
Proof.
  unfold bind_action.
  destruct (need_section action),
           (truthy (Cfg.keys config !! name action)) as [key|];
    try apply agree_ret.
  - apply agree_for_each. intros. apply agree_bind_section.
  - case_bool_decide; [apply agree_ret|].
    destruct (str2modifiers_keycode E key None); [|apply agree_raise].
    apply agree_bind; [apply agree_set_mapping|intros _; apply agree_ret].
Qed.

End Agree.

(** ** What a build can raise *)

Lemma for_each_raises {A S} (P : Exn -> Prop) (xs : list A)
    (body : A -> S -> M S) :
  (forall x s w e, (body x s w).1 = Raise e -> P e) ->
  forall s w e, (for_each xs body s w).1 = Raise e -> P e.
Proof.
  intros Hbody. induction xs as [|x xs IH]; intros s w e; simpl; [done|].
  unfold bind. destruct (body x s w) as [[s'|e'] w'] eqn:Hb.
  - apply IH.
  - cbn. intros [= <-]. apply (Hbody x s w). by rewrite Hb.
Qed.

Lemma bind_section_raises (E : Env) action mask section loc w e :
  (bind_section E action mask section loc w).1 = Raise e ->
  e = UnboundLocalError.
Proof.
  unfold bind_section.
  destruct (truthy (Sec.key section)) as [key|]; [|done].
  case_bool_decide; [done|].
  destruct (str2modifiers_keycode E mask (Some key)) as [mk|], loc as [mk'|];
    unfold_m; cbn; intros; by simplify_eq.
Qed.

Lemma bind_action_raises (E : Env) config action loc w e :
  (bind_action E config action loc w).1 = Raise e ->
  e = ValueError \/ e = UnboundLocalError.
Proof.
  unfold bind_action.
  destruct (need_section action),
           (truthy (Cfg.keys config !! name action)) as [key|]; try done.
  - intros Hr. right. revert Hr.
    apply (for_each_raises (fun e => e = UnboundLocalError)).
    intros x s w' e'. apply bind_section_raises.
  - case_bool_decide; [done|].
    destruct (str2modifiers_keycode E key None) as [mk|];
      unfold_m; cbn; intros; simplify_eq. by left.
Qed.

Lemma PywoModeKeyPressHandler_set_config_raises (E : Env) config w e :
  (PywoModeKeyPressHandler_set_config E config w).1 = Raise e ->
  e = ValueError \/ e = UnboundLocalError.
Proof.
  unfold PywoModeKeyPressHandler_set_config.
  unfold bind at 1. unfold get_pywo_handler at 1.
  unfold bind at 1. unfold set_pywo_handler at 1.
  set (w1 := mkWorld _ _ _). unfold bind at 1.
  destruct (for_each (get_all E) (bind_action E config) None w1)
    as [[loc'|e'] w2] eqn:Hloop; [done|].
  cbn. intros [= <-].
  apply (for_each_raises (fun e => e = ValueError \/ e = UnboundLocalError)
           (get_all E) (bind_action E config)
           (bind_action_raises E config) None w1).
  by rewrite Hloop.
Qed.

(** ** The dispatcher's table after [set_config] *)

(** X1: whether [PywoModeKeyPressHandler.set_config] returned or raised,
    every entry it left in [mappings] is accounted for by the
    configuration it was given: the action is registered and has a
    configured key; a global action is not in [config.ignored_actions] and
    sits at exactly the combo its key parses to; a section-scoped action
    is paired with one of the configuration's sections that has a key and
    does not ignore the action, at the combo that mask and section key
    parse to or, when they do not parse, at some other combo the
    configuration resolves to. No entry of an earlier configuration
    survives. *)
Theorem table_entries_accounted_for (E : Env) (config : Cfg.t) (w : World)
    (k : KeyCombo) (action : Action) (section : option Sec.t) :
  PH.mappings (pywo_handler_of
                 (exec (PywoModeKeyPressHandler_set_config E config) w)) !! k
    = Some (action, section) ->
  entry_justified E config k action section.
Proof.
  unfold exec. pose proof (table_inv_build E config w) as H.
  destruct (PywoModeKeyPressHandler_set_config E config w) as [[[]|e] w'];
    cbn [snd].
  - destruct H as (w2 & (_ & _ & _ & _ & _ & Hs & _) & ->).
    unfold pywo_handler_of at 1. cbn. apply Hs.
  - destruct H as [(_ & _ & _ & _ & _ & Hs & _) _]. apply Hs.
Qed.

Lemma table_entries_accounted_for_witness :
  entry_justified Demo.env Demo.modal (64, 43) Demo.move (Some Demo.left).
Proof.
  apply (table_entries_accounted_for Demo.env Demo.modal Demo.w0).
  vm_compute. reflexivity.
Defined.

(** X2: when [PywoModeKeyPressHandler.set_config] returns, [self.keys]
    lists the keys of [mappings], each once, and a combo is in that list
    exactly when the configuration resolves some binding to it; [config],
    [numlock] and [capslock] are those of the configuration. *)
Theorem built_keys_cover_configuration (E : Env) (config : Cfg.t) (w : World) :
  result (PywoModeKeyPressHandler_set_config E config) w = Ok tt ->
  PH.keys (pywo_handler_of (exec (PywoModeKeyPressHandler_set_config E config) w))
    = (map_to_list
         (PH.mappings
            (pywo_handler_of
               (exec (PywoModeKeyPressHandler_set_config E config) w)))).*1
  /\ NoDup (PH.keys (pywo_handler_of
                       (exec (PywoModeKeyPressHandler_set_config E config) w)))
  /\ (forall k,
        k ∈ PH.keys (pywo_handler_of
                       (exec (PywoModeKeyPressHandler_set_config E config) w))
        <-> k ∈ binding_combos E config)
  /\ PH.config (pywo_handler_of
                  (exec (PywoModeKeyPressHandler_set_config E config) w))
       = Some config
  /\ PH.numlock (pywo_handler_of
                   (exec (PywoModeKeyPressHandler_set_config E config) w))
       = Cfg.numlock config
  /\ PH.capslock (pywo_handler_of
                    (exec (PywoModeKeyPressHandler_set_config E config) w))
       = Cfg.capslock config.
Proof.
  unfold exec, result. pose proof (table_inv_build E config w) as H.
  destruct (PywoModeKeyPressHandler_set_config E config w) as [[[]|e] w'];
    cbn [fst snd]; [intros _|done].
  destruct H as (w2 & (_ & Hc & _ & _ & _ & Hs & Hd & _) & ->).
  unfold pywo_handler_of at 1 2 3 4 5 6 7. cbn.
  split; [done|]. split; [apply NoDup_fst_map_to_list|].
  split; [|done]. intros k. split.
  - intros Hk. apply list_elem_of_fmap in Hk as [[k' [a s]] [-> Hkv]].
    apply elem_of_map_to_list in Hkv. by destruct (Hs _ _ _ Hkv) as (_ & ? & _).
  - intros Hk. destruct (Hd k Hk) as [v Hv].
    apply list_elem_of_fmap. exists (k, v). split; [done|].
    by apply elem_of_map_to_list.
Qed.

Lemma built_keys_cover_configuration_witness :
  (64, 46) ∈ PH.keys (pywo_handler_of
                        (exec (PywoModeKeyPressHandler_set_config Demo.env Demo.modal)
                              Demo.w0))
  <-> (64, 46) ∈ binding_combos Demo.env Demo.modal.
Proof.
  refine (proj1 (proj2 (proj2
    (built_keys_cover_configuration Demo.env Demo.modal Demo.w0 _))) (64, 46)).
  vm_compute. reflexivity.
Defined.

(** X3: when the parser accepts every key the build hands it,
    [PywoModeKeyPressHandler.set_config] returns, logs nothing, leaves the
    grabs alone, and every section-scoped entry sits at exactly the combo
    that the action's mask and the section's key parse to. *)
Theorem build_succeeds_when_keys_parse (E : Env) (config : Cfg.t) (w : World) :
  config_parses E config = true ->
  result (PywoModeKeyPressHandler_set_config E config) w = Ok tt
  /\ trace (exec (PywoModeKeyPressHandler_set_config E config) w) = trace w
  /\ grabbed (exec (PywoModeKeyPressHandler_set_config E config) w) = grabbed w
  /\ forall k action s,
       PH.mappings (pywo_handler_of
                      (exec (PywoModeKeyPressHandler_set_config E config) w)) !! k
         = Some (action, Some s) ->
       exists mask key,
         truthy (Cfg.keys config !! name action) = Some mask
         /\ truthy (Sec.key s) = Some key
         /\ str2modifiers_keycode E mask (Some key) = Some k.
Proof.
  intros Hall. unfold exec, result.
  pose proof (table_inv_build E config w) as H.
  destruct (PywoModeKeyPressHandler_set_config E config w) as [[[]|e] w'];
    cbn [fst snd].
  2: { destruct H as [_ Hfail]. by rewrite Hall in Hfail. }
  destruct H as (w2 & ([Hg _] & _ & _ & _ & _ & Hs & _ & l & Ht & _ & Hnil) & ->).
  unfold pywo_handler_of at 1. cbn.
  rewrite (Hnil Hall), app_nil_r in Ht. repeat (split; [done|]).
  intros k action s Hk.
  destruct (Hs _ _ _ Hk) as (Ha & _ & mask & Hmask & Hns & Hsec & Hign
                             & key & Hkey & [Hparse|Hparse]).
  - by exists mask, key.
  - rewrite (section_parse_failure E config action mask s key) in Hall; done.
Qed.

Lemma build_succeeds_when_keys_parse_witness :
  result (PywoModeKeyPressHandler_set_config Demo.env Demo.modal) Demo.started
    = Ok tt.
Proof.
  refine (proj1 (build_succeeds_when_keys_parse Demo.env Demo.modal Demo.started _)).
  vm_compute. reflexivity.
Defined.

(** X4: [PywoModeKeyPressHandler.set_config] raises nothing but
    [ValueError] and [UnboundLocalError], and only under a configuration
    with a key the parser rejects. It then leaves the handler between two
    configurations: [config] is the new one, while [keys], [numlock] and
    [capslock] are still the old ones; the grabs are as before. *)
Theorem build_raises_only_on_bad_key (E : Env) (config : Cfg.t) (w : World)
    (e : Exn) :
  result (PywoModeKeyPressHandler_set_config E config) w = Raise e ->
  (e = ValueError \/ e = UnboundLocalError)
  /\ config_parses E config = false
  /\ grabbed (exec (PywoModeKeyPressHandler_set_config E config) w) = grabbed w
  /\ PH.config (pywo_handler_of
                  (exec (PywoModeKeyPressHandler_set_config E config) w))
       = Some config
  /\ PH.keys (pywo_handler_of
                (exec (PywoModeKeyPressHandler_set_config E config) w))
       = PH.keys (pywo_handler_of w)
  /\ PH.numlock (pywo_handler_of
                   (exec (PywoModeKeyPressHandler_set_config E config) w))
       = PH.numlock (pywo_handler_of w)
  /\ PH.capslock (pywo_handler_of
                    (exec (PywoModeKeyPressHandler_set_config E config) w))
       = PH.capslock (pywo_handler_of w).
Proof.
  unfold exec, result. intros Hr.
  split; [by apply (PywoModeKeyPressHandler_set_config_raises E config w)|].
  pose proof (table_inv_build E config w) as H.
  destruct (PywoModeKeyPressHandler_set_config E config w) as [[[]|e'] w'];
    cbn [fst snd] in *; [done|].
  by destruct H as [([Hg _] & Hc & Hk & Hn & Hcl & _) Hfail].
Qed.

Lemma build_raises_only_on_bad_key_witness :
  config_parses Demo.env Demo.bad_section_first = false.
Proof.
  refine (proj1 (proj2
    (build_raises_only_on_bad_key Demo.env Demo.bad_section_first Demo.w0
       UnboundLocalError _))).
  vm_compute. reflexivity.
Defined.

Lemma PywoModeKeyPressHandler_set_config_unfold (E : Env) config (w : World) :
  PywoModeKeyPressHandler_set_config E config w =
    match for_each (get_all E) (bind_action E config) None
            (mkWorld (grabbed w)
               (MH.with_pywo_handler
                  (PH.mk (Some config) ∅ (PH.keys (pywo_handler_of w))
                         (PH.numlock (pywo_handler_of w))
                         (PH.capslock (pywo_handler_of w)))
                  (HANDLER w))
               (trace w)) with
    | (Ok _, w2) =>
        (Ok tt,
         mkWorld (grabbed w2)
           (MH.with_pywo_handler
              (PH.mk (PH.config (pywo_handler_of w2))
                     (PH.mappings (pywo_handler_of w2))
                     ((map_to_list (PH.mappings (pywo_handler_of w2))).*1)
                     (Cfg.numlock config) (Cfg.capslock config))
              (HANDLER w2))
           (trace w2))
    | (Raise e, w2) => (Raise e, w2)
    end.
Proof.
  unfold PywoModeKeyPressHandler_set_config.
  unfold bind at 1. unfold get_pywo_handler at 1.
  unfold bind at 1. unfold set_pywo_handler at 1.
  unfold bind at 1. unfold pywo_handler_of.
  by destruct (for_each _ _ _ _) as [[loc'|e] w2].
Qed.

(** X5: the table [PywoModeKeyPressHandler.set_config] builds does not
    depend on what the handler held before. From any two worlds the call
    has the same outcome, leaves the same [mappings] and makes the same
    log calls; when it returns, the whole handler ([config], [mappings],
    [keys], [numlock], [capslock]) is the same. Applying a configuration a
    second time therefore changes nothing. *)
Theorem rebuild_forgets_previous_table (E : Env) (config : Cfg.t)
    (w1 w2 : World) :
  result (PywoModeKeyPressHandler_set_config E config) w1
    = result (PywoModeKeyPressHandler_set_config E config) w2
  /\ PH.mappings (pywo_handler_of
                    (exec (PywoModeKeyPressHandler_set_config E config) w1))
     = PH.mappings (pywo_handler_of
                      (exec (PywoModeKeyPressHandler_set_config E config) w2))
  /\ (exists l,
        trace (exec (PywoModeKeyPressHandler_set_config E config) w1)
          = trace w1 ++ l
        /\ trace (exec (PywoModeKeyPressHandler_set_config E config) w2)
          = trace w2 ++ l)
  /\ match result (PywoModeKeyPressHandler_set_config E config) w1 with
     | Ok _ =>
         pywo_handler_of (exec (PywoModeKeyPressHandler_set_config E config) w1)
         = pywo_handler_of (exec (PywoModeKeyPressHandler_set_config E config) w2)
     | Raise _ => True
     end.
Proof.
  unfold exec, result. rewrite !PywoModeKeyPressHandler_set_config_unfold.
  set (v1 := mkWorld (grabbed w1) _ (trace w1)).
  set (v2 := mkWorld (grabbed w2) _ (trace w2)).
  assert (same_table (trace w1) (trace w2) v1 v2) as Hsame.
  { unfold same_table, pywo_handler_of, v1, v2. cbn.
    repeat (split; [done|]). exists []. by rewrite !app_nil_r. }
  destruct (agree_for_each (trace w1) (trace w2) (get_all E)
              (bind_action E config)
              (agree_bind_action (trace w1) (trace w2) E config)
              None v1 v2 Hsame) as [Hr (Hc & Hm & Hl)].
  destruct (for_each (get_all E) (bind_action E config) None v1)
    as [[l1|e1] u1],
    (for_each (get_all E) (bind_action E config) None v2) as [[l2|e2] u2];
    cbn [fst snd] in *; try discriminate.
  - unfold pywo_handler_of in *. cbn. rewrite Hc, Hm. done.
  - injection Hr as ->. done.
Qed.

(** ** The modal handler's [set_config], with a mode-entry key *)

(** X6: with a mode-entry key that parses to [mk], and the dispatcher's
    table built without an exception, [ModalKeyHandler.set_config] returns
    with [keys = [mk]], [use_modal_mode] the configuration's [modal_mode],
    the lock flags and the five feedback settings those of the
    configuration, and the dispatcher the rebuilt one. [in_pywo_mode] keeps
    its value under modal operation and is set otherwise. No grab is made
    or released: a key grabbed for the old configuration stays grabbed, a
    new one is not grabbed until [grab_keys] runs. *)
Theorem set_config_with_mode_key (E : Env) (config : Cfg.t) (w : World)
    (key : string) (mk : KeyCombo) :
  truthy (Cfg.keys config !! "pywo_mode") = Some key ->
  str2modifiers_keycode E key None = Some mk ->
  result (PywoModeKeyPressHandler_set_config E config) w = Ok tt ->
  let self' := HANDLER (exec (set_config E config) w) in
  result (set_config E config) w = Ok tt
  /\ MH.keys self' = [mk]
  /\ MH.use_modal_mode self' = Cfg.modal_mode config
  /\ MH.in_pywo_mode self' =
       (if Cfg.modal_mode config then MH.in_pywo_mode (HANDLER w) else true)
  /\ MH.numlock self' = Cfg.numlock config
  /\ MH.capslock self' = Cfg.capslock config
  /\ MH.visual_bell self' = Cfg.visual_bell config
  /\ MH.bell_color self' = Cfg.bell_color config
  /\ MH.bell_width self' = Cfg.bell_width config
  /\ MH.bell_duration self' = Cfg.bell_duration config
  /\ MH.scroll_lock_led self' = Cfg.scroll_lock_led config
  /\ MH.escape_keys self' = MH.escape_keys (HANDLER w)
  /\ MH.pywo_handler self' =
       pywo_handler_of (exec (PywoModeKeyPressHandler_set_config E config) w)
  /\ grabbed (exec (set_config E config) w) = grabbed w.
Proof.
  intros Hkey Hparse. cbv zeta. unfold exec, result, pywo_handler_of.
  rewrite set_config_inner, Hkey, Hparse.
  destruct (PywoModeKeyPressHandler_set_config_spec E config w) as [Hframe _].
  apply pywo_handler_only_fields in Hframe.
  destruct (PywoModeKeyPressHandler_set_config E config w) as [[[]|e] w1];
    cbn [fst snd] in *; [intros _|done].
  destruct Hframe as (Hg & _ & Hin & Hesc & _).
  destruct (Cfg.modal_mode config); cbn; by rewrite ?Hin, ?Hesc, ?Hg.
Qed.

Lemma set_config_with_mode_key_witness :
  MH.keys (HANDLER (exec (set_config Demo.env Demo.always_on) Demo.started))
    = [(8, 33)]
  /\ MH.use_modal_mode
       (HANDLER (exec (set_config Demo.env Demo.always_on) Demo.started))
     = false.
Proof.
  assert (truthy (Cfg.keys Demo.always_on !! "pywo_mode") = Some "Alt-p")
    as Hkey by by_compute.
  assert (str2modifiers_keycode Demo.env "Alt-p" None = Some (8, 33))
    as Hparse by by_compute.
  assert (result (PywoModeKeyPressHandler_set_config Demo.env Demo.always_on)
                 Demo.started = Ok tt) as Hok by by_compute.
  pose proof (set_config_with_mode_key Demo.env Demo.always_on Demo.started
                "Alt-p" (8, 33) Hkey Hparse Hok) as H.
  cbv zeta in H. destruct H as (_ & Hkeys & Hmodal & _).
  exact (conj Hkeys Hmodal).
Defined.

(** X7: with a mode-entry key the parser rejects, and the dispatcher's
    table built without an exception, [ModalKeyHandler.set_config] raises
    [ValueError] in the world the dispatcher's [set_config] left: the
    dispatcher holds the new configuration, while the handler's own
    [keys], [use_modal_mode], [in_pywo_mode], lock flags and feedback
    settings, and the grabs, are the old ones. *)
Theorem set_config_bad_mode_key (E : Env) (config : Cfg.t) (w : World)
    (key : string) :
  truthy (Cfg.keys config !! "pywo_mode") = Some key ->
  str2modifiers_keycode E key None = None ->
  result (PywoModeKeyPressHandler_set_config E config) w = Ok tt ->
  let self := HANDLER w in
  let self' := HANDLER (exec (set_config E config) w) in
  set_config E config w
    = (Raise ValueError, exec (PywoModeKeyPressHandler_set_config E config) w)
  /\ PH.config (MH.pywo_handler self') = Some config
  /\ MH.keys self' = MH.keys self
  /\ MH.use_modal_mode self' = MH.use_modal_mode self
  /\ MH.in_pywo_mode self' = MH.in_pywo_mode self
  /\ MH.numlock self' = MH.numlock self
  /\ MH.capslock self' = MH.capslock self
  /\ MH.visual_bell self' = MH.visual_bell self
  /\ MH.bell_color self' = MH.bell_color self
  /\ MH.bell_width self' = MH.bell_width self
  /\ MH.bell_duration self' = MH.bell_duration self
  /\ MH.scroll_lock_led self' = MH.scroll_lock_led self
  /\ MH.escape_keys self' = MH.escape_keys self
  /\ grabbed (exec (set_config E config) w) = grabbed w.
Proof.
  intros Hkey Hparse. cbv zeta. unfold exec, result.
  rewrite set_config_inner, Hkey, Hparse.
  pose proof (table_inv_build E config w) as H.
  destruct (PywoModeKeyPressHandler_set_config E config w) as [[[]|e] w1];
    cbn [fst snd] in *; [intros _|done].
  destruct H as (w2 & (Hframe & Hc & _) & ->).
  apply pywo_handler_only_fields in Hframe.
  destruct Hframe as (Hg & Hmod & Hin & Hesc & Hkeys & Hnum & Hcaps
                      & Hbell & Hcol & Hwid & Hdur & Hled).
  unfold pywo_handler_of in *. cbn. done.
Qed.

Lemma set_config_bad_mode_key_witness :
  set_config Demo.env
      (Demo.config [("pywo_mode", "Bogus"); ("maximize", "Super-m")] [] true)
      Demo.started
    = (Raise ValueError,
       exec (PywoModeKeyPressHandler_set_config Demo.env
               (Demo.config [("pywo_mode", "Bogus"); ("maximize", "Super-m")]
                            [] true))
            Demo.started).
Proof.
  refine (proj1 (set_config_bad_mode_key Demo.env
            (Demo.config [("pywo_mode", "Bogus"); ("maximize", "Super-m")] [] true)
            Demo.started "Bogus" _ _ _)); by_compute.
Defined.

(** ** [setup] *)


(** X9: when the parser accepts every key of the configuration, the
    mode-entry key included, [setup] returns and logs nothing. *)
Theorem setup_returns_when_keys_parse (E : Env) (config : Cfg.t) (w : World) :
  config_parses E config = true ->
  mode_key_parses E config = true ->
  result (setup E config) w = Ok tt
  /\ trace (exec (setup E config) w) = trace w.
Proof.
  intros Hall Hmode. unfold setup, exec, result. rewrite set_config_inner.
  pose proof (table_inv_build E config w) as H.
  unfold mode_key_parses in Hmode.
  destruct (PywoModeKeyPressHandler_set_config E config w) as [[[]|e] w1];
    cbn [fst snd] in *.
  2: { destruct H as [_ Hfail]. by rewrite Hall in Hfail. }
  destruct H as (w2 & (_ & _ & _ & _ & _ & _ & _ & l & Ht & _ & Hnil) & ->).
  rewrite (Hnil Hall), app_nil_r in Ht.
  destruct (truthy (Cfg.keys config !! "pywo_mode")) as [key|]; [|done].
  destruct (str2modifiers_keycode E key None) as [mk|]; [|done].
  by destruct (Cfg.modal_mode config).
Qed.

Lemma setup_returns_when_keys_parse_witness :
  result (setup Demo.env Demo.modal) Demo.in_mode = Ok tt
  /\ trace (exec (setup Demo.env Demo.modal) Demo.in_mode) = trace Demo.in_mode.
Proof.
  apply (setup_returns_when_keys_parse Demo.env Demo.modal Demo.in_mode);
    vm_compute; reflexivity.
Defined.

(** X10: [setup] raises nothing but [ValueError] and [UnboundLocalError],
    and only when the parser rejects a key of the configuration: one the
    table build hands it, or the mode-entry key. *)
Theorem setup_raises_only_on_bad_key (E : Env) (config : Cfg.t) (w : World)
    (e : Exn) :
  result (setup E config) w = Raise e ->
  (e = ValueError \/ e = UnboundLocalError)
  /\ (config_parses E config = false \/ mode_key_parses E config = false).
Proof.
  unfold setup, result. rewrite set_config_inner.
  pose proof (table_inv_build E config w) as H.
  pose proof (PywoModeKeyPressHandler_set_config_raises E config w) as Hr.
  unfold mode_key_parses.
  destruct (PywoModeKeyPressHandler_set_config E config w) as [[[]|e'] w1];
    cbn [fst snd] in *.
  - destruct (truthy (Cfg.keys config !! "pywo_mode")) as [key|]; [|done].
    destruct (str2modifiers_keycode E key None) as [mk|].
    + by destruct (Cfg.modal_mode config).
    + cbn. intros [= <-]. split; [by left|by right].
  - cbn. intros [= <-]. split; [by apply Hr|]. left. by destruct H.
Qed.

Lemma setup_raises_only_on_bad_key_witness :
  (ValueError = ValueError \/ ValueError = UnboundLocalError)
  /\ (config_parses Demo.env Demo.bad_global = false
      \/ mode_key_parses Demo.env Demo.bad_global = false).
Proof.
  apply (setup_raises_only_on_bad_key Demo.env Demo.bad_global Demo.started).
  vm_compute. reflexivity.
Defined.

(** ** After one [setup] *)

Lemma setup_with_mode_key_fields (E : Env) (config : Cfg.t) (w : World)
    (key : string) (mk : KeyCombo) :
  truthy (Cfg.keys config !! "pywo_mode") = Some key ->
  str2modifiers_keycode E key None = Some mk ->
  result (setup E config) w = Ok tt ->
  MH.keys (HANDLER (exec (setup E config) w)) = [mk]
  /\ MH.use_modal_mode (HANDLER (exec (setup E config) w)) = Cfg.modal_mode config
  /\ MH.in_pywo_mode (HANDLER (exec (setup E config) w)) =
       (if Cfg.modal_mode config then MH.in_pywo_mode (HANDLER w) else true)
  /\ grabbed (exec (setup E config) w) = grabbed w
  /\ MH.escape_keys (HANDLER (exec (setup E config) w)) = MH.escape_keys (HANDLER w)
  /\ forall k, k ∈ PH.keys (MH.pywo_handler (HANDLER (exec (setup E config) w)))
               <-> k ∈ binding_combos E config.
Proof.
  intros Hkey Hparse. unfold setup, exec, result.
  rewrite set_config_inner, Hkey, Hparse.
  pose proof (table_inv_build E config w) as H.
  destruct (PywoModeKeyPressHandler_set_config E config w) as [[[]|e] w1];
    cbn [fst snd] in *; [intros _|done].
  destruct H as (w2 & (Hframe & _ & _ & _ & _ & Hs & Hd & _) & ->).
  apply pywo_handler_only_fields in Hframe.
  destruct Hframe as (Hg & _ & Hin & Hesc & _).
  assert (forall k, k ∈ (map_to_list (PH.mappings (pywo_handler_of w2))).*1
                    <-> k ∈ binding_combos E config) as Hiff.
  { intros k. split.
    - intros Hk. apply list_elem_of_fmap in Hk as [[k' [a s]] [-> Hkv]].
      apply elem_of_map_to_list in Hkv.
      by destruct (Hs _ _ _ Hkv) as (_ & ? & _).
    - intros Hk. destruct (Hd k Hk) as [v Hv].
      apply list_elem_of_fmap. exists (k, v). split; [done|].
      by apply elem_of_map_to_list. }
  destruct (Cfg.modal_mode config); cbn; by rewrite ?Hin, ?Hesc, ?Hg.
Qed.

(** X11: after [setup] returned on the fresh handler, with a mode-entry
    key that parses to [mk], [start] grabs exactly the mode-entry combo
    under modal operation, and otherwise exactly the combos the
    configuration resolves bindings to, each for the dispatcher. *)
Theorem start_grabs_configured_keys (E : Env) (esc : KeyCombo) (config : Cfg.t)
    (key : string) (mk : KeyCombo) :
  truthy (Cfg.keys config !! "pywo_mode") = Some key ->
  str2modifiers_keycode E key None = Some mk ->
  result (setup E config) (initial_world esc) = Ok tt ->
  result start (exec (setup E config) (initial_world esc)) = Ok tt
  /\ if Cfg.modal_mode config
     then grabbed (run E [CSetup config; CStart] (initial_world esc))
          = {[ (HModal, mk) ]}
     else forall h k,
            (h, k) ∈ grabbed (run E [CSetup config; CStart] (initial_world esc))
            <-> h = HPywo /\ k ∈ binding_combos E config.
Proof.
  intros Hkey Hparse Hok.
  destruct (setup_with_mode_key_fields E config _ key mk Hkey Hparse Hok)
    as (Hkeys & Hmod & _ & Hg & _ & Hiff).
  cbn [run do_call].
  destruct (start_spec (exec (setup E config) (initial_world esc)))
    as (Hr & _ & Hgs).
  split; [done|]. rewrite Hgs, Hmod, Hkeys, Hg. unfold pywo_handler_of.
  destruct (Cfg.modal_mode config).
  - unfold owned. cbn. set_solver.
  - intros h k. cbn [initial_world grabbed].
    rewrite union_empty_r_L, elem_of_owned, Hiff. done.
Qed.

Lemma start_grabs_configured_keys_witness :
  grabbed (run Demo.env [CSetup Demo.modal; CStart] (initial_world Demo.esc))
    = {[ (HModal, (8, 33)) ]}.
Proof.
  refine (proj2 (start_grabs_configured_keys Demo.env Demo.esc Demo.modal
                   "Alt-p" (8, 33) _ _ _)); by_compute.
Defined.

(** X12: under modal operation shortcuts are live in PyWO mode only.
    After one [setup] that returned, with [modal_mode] on and a
    mode-entry key that parses to [mk], followed by any sequence of
    [start], [stop] and delivered key presses, a handler in normal mode
    holds at most the grab of [mk] for [HANDLER]; so no key press reaches
    the dispatcher or the escape handler. *)
Theorem shortcuts_inactive_in_normal_mode (E : Env) (esc : KeyCombo)
    (config : Cfg.t) (key : string) (mk : KeyCombo) (calls : list Call) :
  truthy (Cfg.keys config !! "pywo_mode") = Some key ->
  str2modifiers_keycode E key None = Some mk ->
  Cfg.modal_mode config = true ->
  result (setup E config) (initial_world esc) = Ok tt ->
  forallb (fun c => negb (is_setup c)) calls = true ->
  MH.in_pywo_mode (HANDLER (run E (CSetup config :: calls) (initial_world esc)))
    = false ->
  grabbed (run E (CSetup config :: calls) (initial_world esc))
    ⊆ {[ (HModal, mk) ]}
  /\ forall event,
       deliver E HPywo event (run E (CSetup config :: calls) (initial_world esc))
         = (Ok tt, run E (CSetup config :: calls) (initial_world esc))
       /\ deliver E HEscape event
            (run E (CSetup config :: calls) (initial_world esc))
          = (Ok tt, run E (CSetup config :: calls) (initial_world esc)).
Proof.
  intros Hkey Hparse Hmodal Hok Hcalls. cbn [run do_call].
  assert (truthy (Cfg.keys config !! "pywo_mode") <> None) as Hsome
    by (by rewrite Hkey).
  pose proof (configured_as_run E _ calls _ Hcalls
                (configured_as_setup E esc config Hsome Hok)) as (_ & _ & Hg).
  destruct (setup_with_mode_key_fields E config _ key mk Hkey Hparse Hok)
    as (Hkeys & Hmod & _).
  rewrite Hmod, Hkeys, Hmodal in Hg.
  set (w := run E calls (exec (setup E config) (initial_world esc))) in *.
  intros Hin. rewrite Hin in Hg.
  assert (grabbed w ⊆ {[ (HModal, mk) ]}) as Hsub.
  { unfold owned in Hg. cbn in Hg. set_solver. }
  split; [done|]. intros event. unfold deliver.
  rewrite !bool_decide_eq_false_2; [done| |]; intros Hheld;
    apply Hsub, elem_of_singleton in Hheld; discriminate.
Qed.

Lemma shortcuts_inactive_in_normal_mode_witness :
  grabbed (run Demo.env
             [CSetup Demo.modal; CStart; CKeyPress HModal Demo.alt_p;
              CKeyPress HPywo Demo.super_m; CKeyPress HEscape Demo.escape]
             (initial_world Demo.esc))
    ⊆ {[ (HModal, (8, 33)) ]}.
Proof.
  refine (proj1 (shortcuts_inactive_in_normal_mode Demo.env Demo.esc Demo.modal
            "Alt-p" (8, 33)
            [CStart; CKeyPress HModal Demo.alt_p;
             CKeyPress HPywo Demo.super_m; CKeyPress HEscape Demo.escape]
            _ _ _ _ _ _)); by_compute.
Defined.

(** X13: without modal operation there is no mode to leave. After one
    [setup] that returned, with [modal_mode] off and a mode-entry key that
    parses, followed by any sequence of [start], [stop] and delivered key
    presses, the handler is in PyWO mode, every grab is one of a combo the
    configuration resolves a binding to, held for the dispatcher, and no
    key press reaches [HANDLER] or the escape handler. *)
Theorem always_in_pywo_mode_without_modal_mode (E : Env) (esc : KeyCombo)
    (config : Cfg.t) (key : string) (mk : KeyCombo) (calls : list Call) :
  truthy (Cfg.keys config !! "pywo_mode") = Some key ->
  str2modifiers_keycode E key None = Some mk ->
  Cfg.modal_mode config = false ->
  result (setup E config) (initial_world esc) = Ok tt ->
  forallb (fun c => negb (is_setup c)) calls = true ->
  MH.in_pywo_mode (HANDLER (run E (CSetup config :: calls) (initial_world esc)))
    = true
  /\ (forall h k,
        (h, k) ∈ grabbed (run E (CSetup config :: calls) (initial_world esc)) ->
        h = HPywo /\ k ∈ binding_combos E config)
  /\ forall event,
       deliver E HModal event (run E (CSetup config :: calls) (initial_world esc))
         = (Ok tt, run E (CSetup config :: calls) (initial_world esc))
       /\ deliver E HEscape event
            (run E (CSetup config :: calls) (initial_world esc))
          = (Ok tt, run E (CSetup config :: calls) (initial_world esc)).
Proof.
  intros Hkey Hparse Hmodal Hok Hcalls. cbn [run do_call].
  assert (truthy (Cfg.keys config !! "pywo_mode") <> None) as Hsome
    by (by rewrite Hkey).
  pose proof (configured_as_run E _ calls _ Hcalls
                (configured_as_setup E esc config Hsome Hok)) as (_ & Hnm & Hg).
  destruct (setup_with_mode_key_fields E config _ key mk Hkey Hparse Hok)
    as (_ & Hmod & _ & _ & _ & Hiff).
  rewrite Hmod, Hmodal in Hg, Hnm. specialize (Hnm eq_refl).
  set (w := run E calls (exec (setup E config) (initial_world esc))) in *.
  rewrite Hnm in Hg.
  assert (forall h k, (h, k) ∈ grabbed w ->
            h = HPywo /\ k ∈ binding_combos E config) as Hsub.
  { intros h k Hheld. apply Hg in Hheld.
    rewrite !elem_of_union, elem_of_owned, Hiff in Hheld.
    destruct Hheld as [H|[H|H]]; [|done|]; by apply elem_of_empty in H. }
  split; [done|]. split; [done|]. intros event. unfold deliver.
  rewrite !bool_decide_eq_false_2; [done| |]; intros Hheld;
    by apply Hsub in Hheld as [? _].
Qed.

Lemma always_in_pywo_mode_without_modal_mode_witness :
  MH.in_pywo_mode
    (HANDLER (run Demo.env
                [CSetup Demo.always_on; CStart; CKeyPress HPywo Demo.super_m;
                 CStop; CStart]
                (initial_world Demo.esc))) = true.
Proof.
  refine (proj1 (always_in_pywo_mode_without_modal_mode Demo.env Demo.esc
            Demo.always_on "Alt-p" (8, 33)
            [CStart; CKeyPress HPywo Demo.super_m; CStop; CStart]
            _ _ _ _ _)); by_compute.
Defined.

(** ** Leaving PyWO mode *)

(** X14: [ModalKeyHandler.normal_mode], run in PyWO mode, returns
    normally after, in this order, the debug log line, the LED turned off
    if [scroll_lock_led], the visual bell if [visual_bell], the release of
    the escape combo if [use_modal_mode], and the release of every key of
    [pywo_handler]; then [in_pywo_mode] is cleared. It releases nothing
    held for [HANDLER] itself, so the mode-entry key stays grabbed. *)
Theorem mode_exit_effects (w : World) (event : Event) :
  MH.in_pywo_mode (HANDLER w) = true ->
  let self := HANDLER w in
  normal_mode event w =
    (Ok tt,
     mkWorld
       (grabbed w
        ∖ ((if MH.use_modal_mode self
            then owned HEscape (MH.escape_keys self) else ∅)
           ∪ owned HPywo (PH.keys (MH.pywo_handler self))))
       (MH.with_in_pywo_mode false self)
       (trace w ++ ELog LDebug (MsgEvent event)
          :: ((if MH.scroll_lock_led self then [EScrollLockLed false] else [])
              ++ (if MH.visual_bell self
                  then [EVisualBell (MH.bell_color self) (MH.bell_width self)
                                    (MH.bell_duration self)]
                  else []))
          ++ (if MH.use_modal_mode self
              then EUngrabKey HEscape <$> MH.escape_keys self else [])
          ++ (EUngrabKey HPywo <$> PH.keys (MH.pywo_handler self))))
  /\ forall k, (HModal, k) ∈ grabbed w ->
               (HModal, k) ∈ grabbed (exec (normal_mode event) w).
Proof.
  intros Hin. cbv zeta. unfold exec. rewrite normal_mode_spec.
  unfold released, ungrab_trace, feedback_trace. rewrite Hin. cbn [andb snd grabbed].
  split; [done|]. intros k Hk. rewrite elem_of_difference. split; [done|].
  rewrite elem_of_union, elem_of_owned.
  destruct (MH.use_modal_mode (HANDLER w)).
  - rewrite elem_of_owned. by intros [[? _]|[? _]].
  - intros [H|[? _]]; [by apply elem_of_empty in H|done].
Qed.

Lemma mode_exit_effects_witness :
  normal_mode Demo.escape Demo.in_mode =
    (Ok tt,
     mkWorld {[ (HModal, (8, 33)) ]}
       (MH.with_in_pywo_mode false (HANDLER Demo.in_mode))
       (trace Demo.in_mode ++
          [ELog LDebug (MsgEvent Demo.escape); EScrollLockLed false;
           EVisualBell "white" 2 3; EUngrabKey HEscape Demo.esc;
           EUngrabKey HPywo (64, 43); EUngrabKey HPywo (64, 46);
           EUngrabKey HPywo (64, 58)])).
Proof.
  rewrite (proj1 (mode_exit_effects Demo.in_mode Demo.escape ltac:(by_compute)));
    by_compute.
Defined.

(** X15: entering PyWO mode and leaving it again is a round trip. From
    normal mode under modal operation, with none of the dispatcher's keys
    and no escape combo grabbed yet, a press of a combo of [self.keys]
    followed by the escape handler's [normal_mode], or by a second press
    of that combo, leaves the grabs and the handler as they were
    before. *)
Theorem mode_round_trip (w : World) (event event' : Event) :
  combo event ∈ MH.keys (HANDLER w) ->
  MH.in_pywo_mode (HANDLER w) = false ->
  MH.use_modal_mode (HANDLER w) = true ->
  (forall k, (k ∈ PH.keys (pywo_handler_of w)) -> ((HPywo, k) ∉ grabbed w)) ->
  (forall k, (k ∈ MH.escape_keys (HANDLER w)) -> ((HEscape, k) ∉ grabbed w)) ->
  (grabbed (exec (normal_mode event') (exec (key_press event) w)) = grabbed w
   /\ HANDLER (exec (normal_mode event') (exec (key_press event) w)) = HANDLER w)
  /\ (grabbed (exec (key_press event) (exec (key_press event) w)) = grabbed w
      /\ HANDLER (exec (key_press event) (exec (key_press event) w)) = HANDLER w).
Proof.
  intros Hkey Hin Hmod Hp He.
  set (w1 := exec (key_press event) w).
  assert (grabbed w1 = owned HEscape (MH.escape_keys (HANDLER w))
                       ∪ (owned HPywo (PH.keys (pywo_handler_of w)) ∪ grabbed w)
          /\ HANDLER w1 = MH.with_in_pywo_mode true (HANDLER w)) as [Hg1 Hh1].
  { unfold w1, exec.
    by rewrite key_press_spec, bool_decide_eq_true_2, Hin, pywo_mode_spec. }
  assert (released (HANDLER w1)
          = owned HEscape (MH.escape_keys (HANDLER w))
            ∪ owned HPywo (PH.keys (pywo_handler_of w))) as Hrel.
  { rewrite Hh1. unfold released, pywo_handler_of. revert Hmod.
    destruct (HANDLER w). cbn. by intros ->. }
  assert (MH.with_in_pywo_mode false (HANDLER w1) = HANDLER w) as Hback.
  { rewrite Hh1. revert Hin. destruct (HANDLER w). cbn. by intros ->. }
  assert (forall ev, grabbed (exec (normal_mode ev) w1) = grabbed w
                     /\ HANDLER (exec (normal_mode ev) w1) = HANDLER w) as Hexit.
  { intros ev. unfold exec. rewrite normal_mode_spec. cbn [snd grabbed HANDLER].
    rewrite Hrel, Hg1, Hback. split; [|done].
    apply set_eq. intros [h k].
    rewrite elem_of_difference, !elem_of_union, !elem_of_owned.
    specialize (Hp k). specialize (He k). split; [tauto|].
    intros Hheld. split; [tauto|]. intros [[-> Hk]|[-> Hk]]; tauto. }
  split; [apply Hexit|].
  assert (exec (key_press event) w1 = exec (normal_mode event) w1) as ->;
    [|apply Hexit].
  unfold exec. f_equal. rewrite key_press_spec, Hh1. cbn [MH.keys MH.in_pywo_mode MH.with_in_pywo_mode].
  by rewrite bool_decide_eq_true_2.
Qed.

Lemma mode_round_trip_witness :
  grabbed (exec (normal_mode Demo.escape) (exec (key_press Demo.alt_p) Demo.started))
    = grabbed Demo.started
  /\ HANDLER (exec (normal_mode Demo.escape)
                (exec (key_press Demo.alt_p) Demo.started))
     = HANDLER Demo.started.
Proof.
  refine (proj1 (mode_round_trip Demo.started Demo.alt_p Demo.escape _ _ _ _ _)).
  - by_compute.
  - by_compute.
  - by_compute.
  - intros k Hk Hheld.
    assert (grabbed Demo.started = {[ (HModal, (8, 33)) ]}) as Hg by by_compute.
    rewrite Hg in Hheld. apply elem_of_singleton in Hheld. discriminate.
  - intros k Hk Hheld.
    assert (grabbed Demo.started = {[ (HModal, (8, 33)) ]}) as Hg by by_compute.
    rewrite Hg in Hheld. apply elem_of_singleton in Hheld. discriminate.
Defined.

(** ** Dispatching a bound key *)

(** X16: a press of a bound combo, with the active window found and the
    keyword arguments resolved, logs the event, asks for the active
    window, resolves the keyword arguments from the stored configuration
    and the entry's section, and calls the entry's action once, on that
    window with those arguments. If the action returns, so does the press.
    If the action raises an exception of the [Exception] hierarchy, the
    exception is logged ([log.error] for an [ActionException],
    [log.exception] otherwise), nothing else happens and the press returns
    normally; if it raises an exception outside that hierarchy, the press
    ends with that exception and logs nothing. The grabs and the handler
    are left as they were in every case. *)
Theorem bound_key_press_calls_action (E : Env) (event : Event) (w : World)
    (action : Action) (section : option Sec.t) (window : Window)
    (kwargs : Kwargs) :
  PH.mappings (pywo_handler_of w) !! combo event = Some (action, section) ->
  active_window E = Ok window ->
  get_kwargs E action (PH.config (pywo_handler_of w)) section = Ok kwargs ->
  PywoModeKeyPressHandler_key_press E event w =
    (match call E action window kwargs with
     | Ok _ => Ok tt
     | Raise exc => if is_Exception exc then Ok tt else Raise exc
     end,
     mkWorld (grabbed w) (HANDLER w)
       (trace w ++
          [ELog LDebug (MsgEvent event); EActiveWindow;
           EGetKwargs action section; ECall action window kwargs]
          ++ match call E action window kwargs with
             | Ok _ => []
             | Raise exc =>
                 if is_Exception exc
                 then [ELog (caught_level exc) (MsgExn exc)]
                 else []
             end)).
Proof.
  unfold pywo_handler_of, combo. intros Hlook Hwin Hkw.
  rewrite (key_press_bound E event w action section Hlook).
  unfold dispatch_result, dispatch_outcome, dispatch_trace, logged, log_caught.
  rewrite Hwin, Hkw.
  by destruct (call E action window kwargs) as [[]|exc].
Qed.

Lemma bound_key_press_calls_action_witness :
  PywoModeKeyPressHandler_key_press
      (Demo.failing_env (BaseExceptionOnly "SystemExit")) Demo.super_h
      Demo.in_mode =
    (Raise (BaseExceptionOnly "SystemExit"),
     mkWorld (grabbed Demo.in_mode) (HANDLER Demo.in_mode)
       (trace Demo.in_mode ++
          [ELog LDebug (MsgEvent Demo.super_h); EActiveWindow;
           EGetKwargs Demo.move (Some Demo.left); ECall Demo.move 7 []])).
Proof.
  rewrite (bound_key_press_calls_action
             (Demo.failing_env (BaseExceptionOnly "SystemExit"))
             Demo.super_h Demo.in_mode Demo.move (Some Demo.left) 7 []);
    by_compute.
Defined.

(** X17: when the active-window query raises on a press of a bound
    combo, the keyword arguments are not resolved and the action is not
    called. An exception of the [Exception] hierarchy is logged
    ([log.error] for an [ActionException], [log.exception] otherwise) and
    the press returns normally; an exception outside that hierarchy ends
    the press, unlogged. *)
Theorem no_call_without_active_window (E : Env) (event : Event) (w : World)
    (action : Action) (section : option Sec.t) (exc : Exn) :
  PH.mappings (pywo_handler_of w) !! combo event = Some (action, section) ->
  active_window E = Raise exc ->
  PywoModeKeyPressHandler_key_press E event w =
    (if is_Exception exc then Ok tt else Raise exc,
     mkWorld (grabbed w) (HANDLER w)
       (trace w ++
          [ELog LDebug (MsgEvent event); EActiveWindow]
          ++ if is_Exception exc
             then [ELog (caught_level exc) (MsgExn exc)]
             else [])).
Proof.
  unfold pywo_handler_of, combo. intros Hlook Hwin.
  rewrite (key_press_bound E event w action section Hlook).
  unfold dispatch_result, dispatch_outcome, dispatch_trace, logged, log_caught.
  by rewrite Hwin.
Qed.

Lemma no_call_without_active_window_witness :
  PywoModeKeyPressHandler_key_press
      (mkEnv Demo.str2mk (Raise (OtherException "no display"))
             [Demo.maximize; Demo.move] (fun _ _ _ => Ok []) (fun _ _ _ => Ok tt))
      Demo.super_m Demo.in_mode =
    (Ok tt,
     mkWorld (grabbed Demo.in_mode) (HANDLER Demo.in_mode)
       (trace Demo.in_mode ++
          [ELog LDebug (MsgEvent Demo.super_m); EActiveWindow;
           ELog LException (MsgExn (OtherException "no display"))])).
Proof.
  apply (no_call_without_active_window _ Demo.super_m Demo.in_mode
           Demo.maximize None (OtherException "no display")); by_compute.
Defined.

(** ** Restarting in PyWO mode *)

(** X18: [stop] does not leave PyWO mode. Called in PyWO mode under modal
    operation it releases the shortcuts but keeps [in_pywo_mode]; after
    the next [start] the mode-entry key is grabbed, the shortcuts are not,
    and the handler still counts itself in PyWO mode, so the next press of
    the mode-entry key runs [normal_mode] and leaves the shortcuts
    ungrabbed. *)
Theorem stop_keeps_pywo_mode (w : World) (event : Event) :
  MH.in_pywo_mode (HANDLER w) = true ->
  MH.use_modal_mode (HANDLER w) = true ->
  combo event ∈ MH.keys (HANDLER w) ->
  HANDLER (exec start (exec stop w)) = HANDLER w
  /\ (forall k, (k ∈ PH.keys (pywo_handler_of w)) ->
                ((HPywo, k) ∉ grabbed (exec start (exec stop w))))
  /\ (HModal, combo event) ∈ grabbed (exec start (exec stop w))
  /\ key_press event (exec start (exec stop w))
     = normal_mode event (exec start (exec stop w))
  /\ (forall k, (k ∈ PH.keys (pywo_handler_of w)) ->
                ((HPywo, k) ∉ grabbed (exec (key_press event)
                                         (exec start (exec stop w))))).
Proof.
  intros Hin Hmod Hkey.
  assert (HANDLER (exec stop w) = HANDLER w
          /\ grabbed (exec stop w) = grabbed w ∖ released (HANDLER w))
    as [Hh1 Hg1] by (unfold exec; by rewrite stop_spec).
  destruct (start_spec (exec stop w)) as (_ & Hh2 & Hg2).
  rewrite Hh1 in Hh2, Hg2. rewrite Hmod, Hg1 in Hg2.
  set (w2 := exec start (exec stop w)) in *.
  assert (forall k, (k ∈ PH.keys (pywo_handler_of w)) ->
                    ((HPywo, k) ∉ grabbed w2)) as Hfree.
  { intros k Hk. rewrite Hg2, elem_of_union, elem_of_owned, elem_of_difference.
    unfold released. rewrite Hin. cbn [andb].
    rewrite elem_of_union, (elem_of_owned HPywo). unfold pywo_handler_of in Hk.
    intros [[? _]|[_ Hno]]; [done|]. apply Hno. by right. }
  assert (key_press event w2 = normal_mode event w2) as Hpress.
  { by rewrite key_press_spec, Hh2, bool_decide_eq_true_2, Hin. }
  split; [done|]. split; [done|]. split.
  { rewrite Hg2, elem_of_union, elem_of_owned. by left. }
  split; [done|]. intros k Hk. unfold exec. rewrite Hpress, normal_mode_spec.
  cbn [snd grabbed]. rewrite elem_of_difference. intros [Hheld _].
  by apply (Hfree k).
Qed.

Lemma stop_keeps_pywo_mode_witness :
  key_press Demo.alt_p (exec start (exec stop Demo.in_mode))
    = normal_mode Demo.alt_p (exec start (exec stop Demo.in_mode)).
Proof.
  refine (proj1 (proj2 (proj2 (proj2
    (stop_keeps_pywo_mode Demo.in_mode Demo.alt_p _ _ _))))); by_compute.
Defined.

(** ** A configured table, dispatched *)

(** X19: after [PywoModeKeyPressHandler.set_config] returned, a key press
    is acted on exactly when the configuration resolves a binding to its
    combo. On any other combo [key_press] does nothing. On such a combo
    [mappings] holds an entry the configuration accounts for (so never one
    of an ignored action), and [key_press] dispatches that entry, with the
    new configuration as the source of its keyword arguments: the calls it
    makes and the way it ends are those of a dispatch of that action for
    that section, and it changes neither grabs nor handler. *)
Theorem dispatch_iff_configured (E : Env) (config : Cfg.t) (w : World)
    (event : Event) :
  result (PywoModeKeyPressHandler_set_config E config) w = Ok tt ->
  let w' := exec (PywoModeKeyPressHandler_set_config E config) w in
  (combo event ∉ binding_combos E config ->
   PywoModeKeyPressHandler_key_press E event w' = (Ok tt, w'))
  /\ (combo event ∈ binding_combos E config ->
      exists action section,
        PH.mappings (pywo_handler_of w') !! combo event = Some (action, section)
        /\ entry_justified E config (combo event) action section
        /\ PywoModeKeyPressHandler_key_press E event w' =
             (dispatch_result E action (Some config) section,
              mkWorld (grabbed w') (HANDLER w')
                (trace w' ++ dispatch_trace E event action (Some config) section))).
Proof.
  cbv zeta. unfold exec, result.
  pose proof (table_inv_build E config w) as H.
  destruct (PywoModeKeyPressHandler_set_config E config w) as [[[]|e] w'];
    cbn [fst snd]; [intros _|done].
  destruct H as (w2 & (_ & Hc & _ & _ & _ & Hs & Hd & _) & ->).
  set (w' := mkWorld _ _ _).
  assert (PH.mappings (MH.pywo_handler (HANDLER w'))
          = PH.mappings (pywo_handler_of w2)) as Hm by done.
  assert (PH.config (MH.pywo_handler (HANDLER w')) = Some config) as Hc'
    by done.
  split.
  - intros Hout.
    unfold PywoModeKeyPressHandler_key_press, bind, get_pywo_handler.
    rewrite Hm.
    destruct (PH.mappings (pywo_handler_of w2) !! (modifiers event, keycode event))
      as [[action section]|] eqn:Hlook; [|done].
    exfalso. apply Hout. by destruct (Hs _ _ _ Hlook) as (_ & ? & _).
  - intros Hin. destruct (Hd _ Hin) as [[action section] Hlook].
    exists action, section. split; [done|]. split; [by apply Hs|].
    rewrite (key_press_bound E event w' action section)
      by (by rewrite Hm).
    by rewrite Hc'.
Qed.

Lemma dispatch_iff_configured_witness :
  PywoModeKeyPressHandler_key_press Demo.env Demo.alt_p
      (exec (PywoModeKeyPressHandler_set_config Demo.env Demo.modal) Demo.w0)
    = (Ok tt, exec (PywoModeKeyPressHandler_set_config Demo.env Demo.modal) Demo.w0)
  /\ exists action section,
       PH.mappings
         (pywo_handler_of
            (exec (PywoModeKeyPressHandler_set_config Demo.env Demo.modal) Demo.w0))
         !! combo Demo.super_h = Some (action, section)
       /\ entry_justified Demo.env Demo.modal (combo Demo.super_h) action section
       /\ PywoModeKeyPressHandler_key_press Demo.env Demo.super_h
            (exec (PywoModeKeyPressHandler_set_config Demo.env Demo.modal) Demo.w0)
          = (dispatch_result Demo.env action (Some Demo.modal) section,
             mkWorld
               (grabbed (exec (PywoModeKeyPressHandler_set_config Demo.env
                                 Demo.modal) Demo.w0))
               (HANDLER (exec (PywoModeKeyPressHandler_set_config Demo.env
                                 Demo.modal) Demo.w0))
               (trace (exec (PywoModeKeyPressHandler_set_config Demo.env
                               Demo.modal) Demo.w0)
                ++ dispatch_trace Demo.env Demo.super_h action
                     (Some Demo.modal) section)).
Proof.
  split.
  - refine (proj1 (dispatch_iff_configured Demo.env Demo.modal Demo.w0
                     Demo.alt_p _) _); by_compute.
  - refine (proj2 (dispatch_iff_configured Demo.env Demo.modal Demo.w0
                     Demo.super_h _) _); by_compute.
Defined.

(** ** The table of a configuration whose keys all parse *)

Lemma table_of_snoc l (k : KeyCombo) (v : Action * option Sec.t) :
  table_of (l ++ [(k, v)]) = <[k := v]> (table_of l).
Proof. unfold table_of. by rewrite foldl_app. Qed.

Lemma table_of_last l1 l2 (k : KeyCombo) (v : Action * option Sec.t) :
  k ∉ l2.*1 -> table_of (l1 ++ (k, v) :: l2) !! k = Some v.
Proof.
  induction l2 as [|[k' v'] l2 IH] using rev_ind; intros Hk.
  - by rewrite table_of_snoc, lookup_insert_eq.
  - rewrite fmap_app, elem_of_app in Hk. cbn in Hk.
    replace (l1 ++ (k, v) :: l2 ++ [(k', v')])
      with ((l1 ++ (k, v) :: l2) ++ [(k', v')])
      by (by rewrite <- app_assoc).
    rewrite table_of_snoc, lookup_insert_ne.
    + apply IH. tauto.
    + intros ->. apply Hk. right. by left.
Qed.

Section ExactTable.

Context (E : Env) (config : Cfg.t).
Hypothesis Hall : config_parses E config = true.

Lemma exact_bind_section L action mask section loc :
  action ∈ get_all E -> need_section action = true ->
  truthy (Cfg.keys config !! name action) = Some mask ->
  section ∈ Cfg.sections config ->
  hoare (fun w => PH.mappings (pywo_handler_of w) = table_of L)
        (bind_section E action mask section loc)
        (fun _ w => PH.mappings (pywo_handler_of w)
                    = table_of (L ++ section_bindings E action mask section))
        (fun _ => False).
Proof.
  intros Ha Hns Hmask Hs w Hw. unfold bind_section, section_bindings.
  destruct (truthy (Sec.key section)) as [key|] eqn:Hkey.
  2: { cbn. by rewrite app_nil_r. }
  case_bool_decide as Hign.
  { cbn. by rewrite app_nil_r. }
  destruct (str2modifiers_keycode E mask (Some key)) as [mk|] eqn:Hparse.
  - unfold_m. unfold pywo_handler_of in *. cbn.
    by rewrite table_of_snoc, Hw.
  - exfalso.
    rewrite (section_parse_failure E config action mask section key) in Hall;
      done.
Qed.

Lemma exact_bind_action L action loc :
  action ∈ get_all E ->
  hoare (fun w => PH.mappings (pywo_handler_of w) = table_of L)
        (bind_action E config action loc)
        (fun _ w => PH.mappings (pywo_handler_of w)
                    = table_of (L ++ action_bindings E config action))
        (fun _ => False).
Proof.
  intros Ha. unfold bind_action, action_bindings.
  destruct (truthy (Cfg.keys config !! name action)) as [key|] eqn:Hkey.
  2: { intros w Hw. destruct (need_section action); cbn; by rewrite app_nil_r. }
  destruct (need_section action) eqn:Hns.
  - intros w Hw.
    apply (hoare_for_each_prefix (Cfg.sections config)
             (bind_section E action key)
             (fun pre _ w' =>
                PH.mappings (pywo_handler_of w')
                = table_of (L ++ flat_map (section_bindings E action key) pre))
             (fun _ => False)
             ltac:(intros pre x s Hx w' Hw';
                   rewrite flat_map_app; cbn [flat_map];
                   rewrite app_nil_r, app_assoc;
                   by apply exact_bind_section)
             [] loc w).
    cbn [flat_map]. by rewrite app_nil_r.
  - case_bool_decide as Hign.
    { intros w Hw. cbn. by rewrite app_nil_r. }
    destruct (str2modifiers_keycode E key None) as [mk|] eqn:Hparse.
    + intros w Hw. unfold_m. unfold pywo_handler_of in *. cbn.
      by rewrite table_of_snoc, Hw.
    + exfalso.
      rewrite (global_parse_failure E config action key) in Hall; done.
Qed.

Lemma exact_build (w : World) :
  PH.mappings (pywo_handler_of
                 (exec (PywoModeKeyPressHandler_set_config E config) w))
    = table_of (bindings E config).
Proof.
  unfold exec. rewrite PywoModeKeyPressHandler_set_config_unfold.
  set (w1 := mkWorld _ _ _).
  pose proof (hoare_for_each_prefix (get_all E) (bind_action E config)
    (fun pre _ w' =>
       PH.mappings (pywo_handler_of w')
       = table_of (flat_map (action_bindings E config) pre))
    (fun _ => False)
    ltac:(intros pre x s Hx w' Hw';
          rewrite flat_map_app; cbn [flat_map]; rewrite app_nil_r;
          by apply exact_bind_action)
    [] None w1 eq_refl) as Hloop.
  cbn [app] in Hloop.
  by destruct (for_each (get_all E) (bind_action E config) None w1)
    as [[loc'|e] w2].
Qed.

End ExactTable.

(** X20: when the parser accepts every key the build hands it, the table
    [PywoModeKeyPressHandler.set_config] leaves is the dictionary that
    results from the item assignments of the configuration's bindings
    ([bindings]: registry order, then section order), made first to last
    on an empty dictionary. So when several bindings resolve to one combo,
    the entry is that of the last of them. *)
Theorem built_table_last_write_wins (E : Env) (config : Cfg.t) (w : World) :
  config_parses E config = true ->
  PH.mappings (pywo_handler_of
                 (exec (PywoModeKeyPressHandler_set_config E config) w))
    = table_of (bindings E config)
  /\ forall l1 l2 k v,
       bindings E config = l1 ++ (k, v) :: l2 -> k ∉ l2.*1 ->
       PH.mappings (pywo_handler_of
                      (exec (PywoModeKeyPressHandler_set_config E config) w)) !! k
         = Some v.
Proof.
  intros Hall. rewrite (exact_build E config Hall w). split; [done|].
  intros l1 l2 k v ->. apply table_of_last.
Qed.

Lemma built_table_last_write_wins_witness :
  PH.mappings (pywo_handler_of
                 (exec (PywoModeKeyPressHandler_set_config Demo.env Demo.shared_key)
                       Demo.started))
    = table_of (bindings Demo.env Demo.shared_key).
Proof.
  refine (proj1 (built_table_last_write_wins Demo.env Demo.shared_key
                   Demo.started _)).
  vm_compute. reflexivity.
Defined.

(** ** Grabs of keys a reload dropped *)

Lemma same_settings_refl (h : MH.t) : same_settings h h.
Proof. done. Qed.

(** A call other than [setup] keeps the handlers' settings and releases no
    grab other than of a combo of one of the three key lists. *)
Lemma call_releases_own_keys (E : Env) (c : Call) (w : World) :
  is_setup c = false ->
  same_settings (HANDLER (exec (do_call E c) w)) (HANDLER w)
  /\ forall g, g ∈ grabbed w ->
       g ∉ owned HModal (MH.keys (HANDLER w))
           ∪ owned HPywo (PH.keys (MH.pywo_handler (HANDLER w)))
           ∪ owned HEscape (MH.escape_keys (HANDLER w)) ->
       g ∈ grabbed (exec (do_call E c) w).
Proof.
  assert (forall ev,
            same_settings (HANDLER (exec (normal_mode ev) w)) (HANDLER w)
            /\ forall g, g ∈ grabbed w ->
                 g ∉ owned HModal (MH.keys (HANDLER w))
                     ∪ owned HPywo (PH.keys (MH.pywo_handler (HANDLER w)))
                     ∪ owned HEscape (MH.escape_keys (HANDLER w)) ->
                 g ∈ grabbed (exec (normal_mode ev) w)) as Hnormal.
  { intros ev. unfold exec. rewrite normal_mode_spec. cbn [snd HANDLER grabbed].
    split; [apply same_settings_in_pywo_mode, same_settings_refl|].
    intros g Hg Hown. unfold released.
    destruct (MH.in_pywo_mode (HANDLER w)), (MH.use_modal_mode (HANDLER w));
      cbn; set_solver. }
  destruct c as [config| | |h event]; [done| | |]; intros _; cbn [do_call].
  - destruct (start_spec w) as (_ & Hh & Hg). rewrite Hh, Hg.
    split; [apply same_settings_refl|]. set_solver.
  - unfold exec. rewrite stop_spec. cbn [snd HANDLER grabbed].
    split; [apply same_settings_refl|].
    intros g Hg Hown. unfold released.
    destruct (MH.in_pywo_mode (HANDLER w)), (MH.use_modal_mode (HANDLER w));
      cbn; set_solver.
  - destruct (deliver_spec E h event w) as [Heq|[_ Heq]]; unfold exec;
      rewrite Heq; [by split; [apply same_settings_refl|]|].
    destruct h; cbn [handler_key_press].
    + rewrite key_press_spec.
      destruct (bool_decide _); [|by split; [apply same_settings_refl|]].
      destruct (MH.in_pywo_mode (HANDLER w)); [apply Hnormal|].
      rewrite pywo_mode_spec. cbn [snd HANDLER grabbed].
      split; [apply same_settings_in_pywo_mode, same_settings_refl|].
      set_solver.
    + destruct (dispatcher_key_press_frame E event w) as [Hg Hh].
      unfold exec in Hg, Hh. rewrite Hg, Hh.
      by split; [apply same_settings_refl|].
    + apply Hnormal.
Qed.

Lemma run_releases_own_keys (E : Env) (calls : list Call) (w : World)
    (h0 : MH.t) (g : HandlerId * KeyCombo) :
  forallb (fun c => negb (is_setup c)) calls = true ->
  same_settings (HANDLER w) h0 ->
  g ∉ owned HModal (MH.keys h0)
      ∪ owned HPywo (PH.keys (MH.pywo_handler h0))
      ∪ owned HEscape (MH.escape_keys h0) ->
  g ∈ grabbed w -> g ∈ grabbed (run E calls w).
Proof.
  intros Hcalls Hsame Hown. revert w Hcalls Hsame.
  induction calls as [|c calls IH]; intros w; cbn [forallb run]; [done|].
  rewrite andb_true_iff, negb_true_iff. intros [Hc Hcs] Hsame Hg.
  destruct (call_releases_own_keys E c w Hc) as [Hsame' Hkeep].
  destruct (same_settings_fields _ _ Hsame) as (_ & Hk & Hp & He).
  apply IH; [done| |].
  - unfold same_settings in *. by rewrite Hsame'.
  - apply Hkeep; [done|]. by rewrite Hk, Hp, He.
Qed.

Lemma setup_keys_in_binding (E : Env) (config : Cfg.t) (w : World) :
  result (setup E config) w = Ok tt ->
  grabbed (exec (setup E config) w) = grabbed w
  /\ forall k, k ∈ PH.keys (MH.pywo_handler (HANDLER (exec (setup E config) w))) ->
               k ∈ binding_combos E config.
Proof.
  unfold setup, exec, result. rewrite set_config_inner.
  destruct (PywoModeKeyPressHandler_set_config_spec E config w) as [Hframe Hkeys].
  apply pywo_handler_only_fields in Hframe. destruct Hframe as (Hg & _).
  unfold pywo_handler_of in Hkeys.
  destruct (PywoModeKeyPressHandler_set_config E config w) as [[[]|e] w1];
    cbn [fst snd] in *; [|done].
  destruct (truthy (Cfg.keys config !! "pywo_mode")) as [key|]; [|done].
  destruct (str2modifiers_keycode E key None) as [mk|]; [|done].
  by destruct (Cfg.modal_mode config).
Qed.

(** X21: a reload never releases the grab of a shortcut it drops. When a
    combo is grabbed for the dispatcher and [setup] returns with a
    configuration that resolves no binding to it, the combo is still
    grabbed after that [setup] and after any sequence of [start], [stop]
    and delivered key presses that follows: every later release goes by
    the new key lists. *)
Theorem dropped_shortcut_stays_grabbed (E : Env) (config : Cfg.t) (w : World)
    (k : KeyCombo) (calls : list Call) :
  (HPywo, k) ∈ grabbed w ->
  result (setup E config) w = Ok tt ->
  k ∉ binding_combos E config ->
  forallb (fun c => negb (is_setup c)) calls = true ->
  (HPywo, k) ∈ grabbed (run E (CSetup config :: calls) w).
Proof.
  intros Hheld Hok Hout Hcalls. cbn [run do_call].
  destruct (setup_keys_in_binding E config w Hok) as [Hg Hkeys].
  apply (run_releases_own_keys E calls _
           (HANDLER (exec (setup E config) w))); try done.
  - rewrite !elem_of_union, !elem_of_owned.
    intros [[[? _]|[_ Hk]]|[? _]]; try done. by apply Hout, Hkeys.
  - by rewrite Hg.
Qed.

Lemma dropped_shortcut_stays_grabbed_witness :
  (HPywo, (64, 58)) ∈ grabbed
    (run Demo.env
       [CSetup (Demo.config [("pywo_mode", "Alt-p"); ("move", "Super")]
                            [Demo.left; Demo.right] true);
        CKeyPress HEscape Demo.escape; CStop]
       Demo.in_mode).
Proof.
  apply (dropped_shortcut_stays_grabbed Demo.env
           (Demo.config [("pywo_mode", "Alt-p"); ("move", "Super")]
                        [Demo.left; Demo.right] true)
           Demo.in_mode (64, 58) [CKeyPress HEscape Demo.escape; CStop]);
    by_compute.
Defined.
